(** * internetnl_domain_analyse: a shallow embedding of the analysis pipeline

    The repository consists of a command-line driver ([domein_analyse.py]),
    the orchestrator class [DomainAnalyser] ([domain_analyse_classes.py]) and
    a module of helpers ([utils.py]).  This development embeds the parts of
    the three files that carry the specified behaviour and proves or refutes
    the properties the specification states about them.

    Conventions.
    - A Python [dict] whose iteration order is observable is an association
      list in insertion order; a [dict] or table read only by key is a [gmap].
    - The files on disk are a finite set of paths ([gset string]); writing a
      pickle adds its path, reading leaves the set as it is.
    - Code that can raise returns [result]; the exception is a value.
    - Calls into pandas, tldextract, pathlib and [re] are embedded by their
      documented behaviour on the values that reach them; each such place
      says so. *)

From Stdlib Require Import ZArith QArith String Ascii List Bool Lia DecimalString.
From stdpp Require Import base gmap strings list fin_maps.

Open Scope Z_scope.

(** ** Exceptions and fallible computations *)

Inductive exn : Type :=
  | KeyError (key : string)
  | TypeError (msg : string)
  | UnexpectedKeyword (callee keyword : string)   (* a TypeError *)
  | AttributeError (msg : string)
  | IndexError (msg : string)
  | OSError (msg : string).

Inductive result (A : Type) : Type :=
  | Ok (a : A)
  | Raise (e : exn).

Arguments Ok {A} a.
Arguments Raise {A} e.

(** What [except TypeError] catches. *)
Definition is_type_error (e : exn) : bool :=
  match e with
  | TypeError _ | UnexpectedKeyword _ _ => true
  | _ => false
  end.

#[global] Instance result_ret : MRet result := fun A a => Ok a.

#[global] Instance result_bind : MBind result := fun A B k m =>
  match m with
  | Ok a => k a
  | Raise e => Raise e
  end.

(** ** The reset / cache state machine of [DomainAnalyser.__init__] *)

Module Pipeline.

(** What the constructor can observably do with its caches.
    [ComputeStats] is the call of [calculate_statistics_one_breakdown]; the
    routines of [ict_analyser] behind it are not part of the repository and
    are taken to return. *)
Inductive event : Type :=
  | ReadSources                      (* both relational files are read *)
  | WriteDatasetCache                (* pickle.dump(self.dataframe, ...) *)
  | LoadDatasetCache                 (* pickle.load of the dataset cache *)
  | LoadStats (file_base : string)   (* pickle.load of a breakdown's cache *)
  | ComputeStats (file_base : string)
  | WriteStats (file_base : string)  (* pickle.dump(all_stats, ...) *)
  | ExportDataframe                  (* write_data, followed by sys.exit(0) *)
  | ExportRaises.                    (* write_data on a dataset that is None *)

(** Where the in-memory dataset [self.dataframe] came from. *)
Inductive dataset : Type :=
  | Unset          (* self.dataframe = None *)
  | Built          (* merged from the two source files *)
  | Loaded.        (* unpickled from the cache file *)

(** The value passed for the [reset] parameter.  Python's [bool] is a
    subclass of [int]; [int(True) = 1], [int(False) = 0]. *)
Inductive reset_arg : Type :=
  | RBool (b : bool)
  | RInt (n : Z).

Definition int_of (a : reset_arg) : Z :=
  match a with
  | RBool true => 1
  | RBool false => 0
  | RInt n => n
  end.

(** Lines 96-99: [self.reset = None if reset is None else int(reset)]. *)
Definition effective_reset (reset : option reset_arg) : option Z :=
  match reset with
  | None => None
  | Some a => Some (int_of a)
  end.

Record state : Type := mkState {
  disk : gset string;
  dataframe : dataset;
  trace : list event
}.

Definition emit (evs : list event) (st : state) : state :=
  mkState (disk st) (dataframe st) (trace st ++ evs).

Definition write_file (p : string) (st : state) : state :=
  mkState ({[p]} ∪ disk st) (dataframe st) (trace st).

Definition set_dataframe (d : dataset) (st : state) : state :=
  mkState (disk st) d (trace st).

Definition file_exists (p : string) (st : state) : bool :=
  bool_decide (p ∈ disk st).

Section StateMachine.

(** [pathlib]'s [/] on the cache directory and a file name. *)
Variable path_join : string -> string -> string.

Variable cache_file : string.
Variable cache_directory : string.
Variable R : option Z.

(** Line 108: the guard in front of [self.read_data()]. *)
Definition build_step_runs (st : state) : bool :=
  match R with
  | Some r => (r <=? 1) || negb (file_exists cache_file st)
  | None => negb (file_exists cache_file st)
  end.

(** Line 292: the guard inside [read_data]; [None == 0] is false. *)
Definition rebuild_from_sources (st : state) : bool :=
  negb (file_exists cache_file st) ||
  match R with
  | Some r => r =? 0
  | None => false
  end.

(** [read_data] (lines 291-351), as far as the caches are concerned. *)
Definition read_data (st : state) : state :=
  if rebuild_from_sources st then
    write_file cache_file
      (emit [ReadSources; WriteDatasetCache] (set_dataframe Built st))
  else
    emit [LoadDatasetCache] (set_dataframe Loaded st).

Definition stats_cache_file (file_base : string) : string :=
  path_join cache_directory (file_base +:+ ".pkl").

(** Line 259: [cache_file.exists() and self.reset is None]. *)
Definition stats_cache_reused (file_base : string) (st : state) : bool :=
  file_exists (stats_cache_file file_base) st &&
  match R with
  | None => true
  | Some _ => false
  end.

(** One iteration of the loop of [calculate_statistics] (lines 254-272). *)
Definition stats_step (st : state) (file_base : string) : state :=
  if stats_cache_reused file_base st then
    emit [LoadStats file_base] st
  else
    write_file (stats_cache_file file_base)
      (emit [ComputeStats file_base; WriteStats file_base] st).

Definition calculate_statistics (statistics : list string) (st : state)
  : state :=
  fold_left stats_step statistics st.

(** [__init__] from line 102 to line 115, as far as the choice of the
    steps is concerned: the steps that are chosen are taken to return.
    [statistics] lists the keys of the [statistics] mapping in iteration
    order.  With [write_dataframe_to_sqlite] the run ends with the export
    and reaches no statistics; when the build step was skipped the dataset
    is still [None] and line 277 raises [AttributeError]. *)
Definition init (statistics : list string)
    (write_dataframe_to_sqlite : bool) (files : gset string) : state :=
  let st0 := mkState files Unset [] in
  let st1 := if build_step_runs st0 then read_data st0 else st0 in
  if write_dataframe_to_sqlite then
    match dataframe st1 with
    | Unset => emit [ExportRaises] st1
    | _ => emit [ExportDataframe] st1
    end
  else calculate_statistics statistics st1.

End StateMachine.

(** What a run does to every breakdown when no statistics cache is used. *)
Definition recompute_all (statistics : list string) : list event :=
  flat_map (fun fb => [ComputeStats fb; WriteStats fb]) statistics.

End Pipeline.

(** ** Strings

    A Python string is the string of the bytes of its UTF-8 encoding, so
    an ASCII character of the string is a byte of its own.  Where the
    source calls [str.lower] or [str.strip], which depend on Unicode's
    tables, the method is a parameter of the definition that calls it.
    For text in ASCII the methods are the functions [str_lower] and
    [Tldextract.ascii_strip] below, used in the examples. *)

(** [str.lower] on ASCII text. *)
Definition ascii_lower (c : ascii) : ascii :=
  let n := nat_of_ascii c in
  if ((65 <=? n) && (n <=? 90))%nat then ascii_of_nat (n + 32) else c.

Fixpoint str_lower (s : string) : string :=
  match s with
  | EmptyString => EmptyString
  | String c rest => String (ascii_lower c) (str_lower rest)
  end.

(** ** Python and pandas values

    The cells of a table, the keys of a translation and the values read
    from the settings file.  Python's [bool] is a subclass of [int]
    ([True == 1]), so booleans are the integers 0 and 1.  A finite float is
    an exact rational (rounding of integers beyond 2^53 is outside the
    model); NaN is a value of its own. *)

Module Py.

Inductive number : Type :=
  | NInt (n : Z)
  | NFloat (q : Q)
  | NNaN.

Inductive value : Type :=
  | VStr (s : string)
  | VNum (x : number)
  | VNone.

(** [float(val)] on a number. *)
Definition float_of (x : number) : number :=
  match x with
  | NInt n => NFloat (inject_Z n)
  | NFloat q => NFloat q
  | NNaN => NNaN
  end.

Definition num_eqb (x y : number) : bool :=
  match x, y with
  | NInt a, NInt b => a =? b
  | NInt a, NFloat q => Qeq_bool (inject_Z a) q
  | NFloat q, NInt a => Qeq_bool q (inject_Z a)
  | NFloat p, NFloat q => Qeq_bool p q
  | _, _ => false
  end.

(** Python's [==] together with hash equality, as [set] and [dict] use it
    for membership: [1 == 1.0], a string never equals a number, and a NaN
    equals nothing, not even another NaN.  A [set] or [dict] also finds a
    key that is the very same object; for a NaN this depends on where the
    object came from, which a value does not record, so where it matters
    whether a NaN is a key, the statements about [fill_booleans] below
    keep to columns without NaN cells. *)
Definition py_eq (x y : value) : bool :=
  match x, y with
  | VStr s, VStr t => String.eqb s t
  | VNum a, VNum b => num_eqb a b
  | VNone, VNone => true
  | _, _ => false
  end.

(** pandas' missing values ([isna]). *)
Definition is_missing (x : value) : bool :=
  match x with
  | VNone | VNum NNaN => true
  | _ => false
  end.

(** Equality in pandas' hash tables ([unique], [duplicated], merge keys,
    [Series.map]): as [py_eq], but two NaN are the same key. *)
Definition pd_eq (x y : value) : bool :=
  match x, y with
  | VNum NNaN, VNum NNaN => true
  | _, _ => py_eq x y
  end.

(** Element-wise [series == key]: a missing value on either side compares
    false. *)
Definition elem_eq (x key : value) : bool :=
  negb (is_missing x) && negb (is_missing key) && py_eq x key.

(** [Series.unique()]: the distinct values in order of first appearance. *)
Fixpoint unique_from (seen : list value) (l : list value) : list value :=
  match l with
  | [] => []
  | x :: rest =>
      if existsb (pd_eq x) seen then unique_from seen rest
      else x :: unique_from (x :: seen) rest
  end.

Definition unique (l : list value) : list value := unique_from [] l.

(** A [dict] in insertion order. *)
Definition dict (V : Type) : Type := list (value * V).

Definition keys {V : Type} (d : dict V) : list value := map fst d.

(** [k in d] *)
Definition mem (k : value) (ks : list value) : bool := existsb (py_eq k) ks.

(** [d.get(k)] *)
Fixpoint dict_get {V : Type} (k : value) (d : dict V) : option V :=
  match d with
  | [] => None
  | (k', v) :: rest => if py_eq k k' then Some v else dict_get k rest
  end.

(** [d[k] = v]: an existing key keeps its place, a new key goes last. *)
Fixpoint dict_set {V : Type} (d : dict V) (k : value) (v : V) : dict V :=
  match d with
  | [] => [(k, v)]
  | (k', v') :: rest =>
      if py_eq k k' then (k', v) :: rest else (k', v') :: dict_set rest k v
  end.

(** Truth value of [set(ks).intersection(vals)]. *)
Definition intersects (ks vals : list value) : bool :=
  existsb (fun u => mem u ks) vals.

(** [set(vals).difference(ks)], in the order of [vals]. *)
Definition difference (vals ks : list value) : list value :=
  List.filter (fun u => negb (mem u ks)) vals.

End Py.

(** ** The helpers of [utils.py] that rewrite table columns *)

Module Utils.

Import Py.

(** A row of the variable-metadata table, as far as the helpers read it:
    the declared [type] and the value translation [translateopts] (already
    parsed from its YAML text). *)
Record var_props : Type := mkVar {
  var_type : option string;
  translateopts : option (dict value)
}.

(** The [translations] setting: translation-set name to a mapping from
    source value to numeric target ([float(val)] of line 66 raises on any
    other target).  Both levels are Python dicts, iterated in insertion
    order. *)
Definition translations : Type := list (string * dict number).

(** A table as its labelled columns, in column order. *)
Definition table : Type := list (string * list value).

Definition labels (t : table) : list string := map fst t.

(** What [tldextract.extract] returns. *)
Record ExtractResult : Type := mkExtract {
  subdomain : string;
  domain : string;
  suffix : string
}.

Section GetDomain.

(** [str.lower] *)
Variable lower : string -> string.

(** [tldextract.extract], a call into the tldextract package. *)
Variable extract : value -> result ExtractResult.

(** [get_domain] (lines 32-39): a [TypeError] of the extractor gives
    [None]; any other exception passes through. *)
Definition get_domain (url : value) : result (option string) :=
  match extract url with
  | Ok tld => Ok (Some (lower (domain tld)))
  | Raise e => if is_type_error e then Ok None else Raise e
  end.

End GetDomain.

Section FillBooleans.

(** [list(nan_val)[0]]: the first element of a Python [set] in its
    iteration order, which depends on the hashes of the elements; any
    element of the set may come first. *)
Variable pick : list value -> value.

Variable variables : gmap string var_props.

(** Lines 44-51: [variables.loc[col, "type"]] and the test on ["dict"]. *)
Definition convert_to_bool (col : string) : bool :=
  match variables !! col with
  | None => true
  | Some props =>
      match var_type props with
      | Some t => negb (String.eqb t "dict")
      | None => true
      end
  end.

(** Lines 64-66: [mask = tables[col] == key], and where any cell matches,
    [tables.loc[mask, col] = float(val)]. *)
Definition replace_where (key : value) (val : number) (column : list value)
  : list value :=
  if existsb (fun c => elem_eq c key) column then
    map (fun c => if elem_eq c key then VNum (float_of val) else c) column
  else column.

(** Lines 63-66: the loop over [trans_prop.items()]. *)
Definition apply_entry (trans_prop : dict number) (column : list value)
  : list value :=
  fold_left (fun c kv => replace_where (fst kv) (snd kv) c) trans_prop column.

(** Lines 57-62: the entry after the optional insertion of one uncovered
    value with target NaN. *)
Definition mark_missing (unique_values : list value)
    (trans_prop : dict number) : dict number :=
  match difference unique_values (keys trans_prop) with
  | [] => trans_prop
  | nan_val => dict_set trans_prop (pick nan_val) NNaN
  end.

(** Lines 56-66: the loop over [translations.items()] for one column.
    [unique_values] was taken before the loop and is not refreshed; the
    entries are updated in place. *)
Fixpoint translate_column (unique_values : list value)
    (column : list value) (trs : translations)
  : list value * translations :=
  match trs with
  | [] => (column, [])
  | (trans_key, trans_prop) :: rest =>
      if intersects (keys trans_prop) unique_values then
        let trans_prop' := mark_missing unique_values trans_prop in
        let '(column', rest') :=
          translate_column unique_values (apply_entry trans_prop' column)
            rest in
        (column', (trans_key, trans_prop') :: rest')
      else
        let '(column', rest') :=
          translate_column unique_values column rest in
        (column', (trans_key, trans_prop) :: rest')
  end.

(** Lines 44-66: the body of the loop over [tables.columns]. *)
Definition fill_column (col : string) (column : list value)
    (trs : translations) : list value * translations :=
  if convert_to_bool col then
    let unique_values := unique column in
    if (length unique_values <=? 3)%nat then
      translate_column unique_values column trs
    else (column, trs)
  else (column, trs).

(** The loop over the columns, threading the translations through. *)
Fixpoint fill_columns (t : table) (trs : translations)
  : table * translations :=
  match t with
  | [] => ([], trs)
  | (col, column) :: rest =>
      let '(column', trs') := fill_column col column trs in
      let '(rest', trs'') := fill_columns rest trs' in
      ((col, column') :: rest', trs'')
  end.

(** Number of columns carrying a label. *)
Definition label_count (col : string) (t : table) : nat :=
  length (List.filter (String.eqb col) (labels t)).

(** [fill_booleans] (lines 42-67).  The result pairs the returned table
    with the [translations] object as the caller finds it afterwards.
    Under a label that two columns share [tables[col]] is a table, not a
    column, and [.unique()] raises. *)
Definition fill_booleans (t : table) (trs : translations)
  : result (table * translations) :=
  if existsb (fun col => convert_to_bool col && (1 <? label_count col t)%nat)
       (labels t)
  then Raise (AttributeError "unique")
  else Ok (fill_columns t trs).

End FillBooleans.

(** *** Words for the statements about [fill_booleans] *)

(** What the loop over an entry's items does to a single cell. *)
Definition apply_cell (trans_prop : dict number) (c : value) : value :=
  fold_left
    (fun c kv => if elem_eq c (fst kv) then VNum (float_of (snd kv)) else c)
    trans_prop c.

(** A value that is no finite number: a string or a missing value. *)
Definition non_numeric (v : value) : bool :=
  match v with
  | VNum (NInt _) | VNum (NFloat _) => false
  | _ => true
  end.

(** A string. *)
Definition is_str (v : value) : bool :=
  match v with
  | VStr _ => true
  | _ => false
  end.

(** Same entries in the same order, each holding at least the items it
    held before. *)
Definition grows (trs trs' : translations) : Prop :=
  Forall2 (fun e e' => fst e = fst e' /\ incl (snd e) (snd e')) trs trs'.

(** Two orders in which [list(nan_val)] can list a set: as the values
    were observed, or reversed. *)
Definition pick_first (l : list value) : value := hd VNone l.

Definition pick_last (l : list value) : value := List.last l VNone.

(** *** [get_option_mask] *)

(** The rows of a question's statistics table: the [variable] column and the
    third level of the row index. *)
Record question_row : Type := mkRow {
  variable : string;
  option_label : string
}.

Definition is_digit (c : ascii) : bool :=
  let n := nat_of_ascii c in ((48 <=? n) && (n <=? 57))%nat.

(** Whether a string is exactly [_<digit>.0]. *)
Definition is_suffix_pattern (s : string) : bool :=
  match s with
  | String "_" (String d (String "." (String "0" EmptyString))) => is_digit d
  | _ => false
  end.

(** [re.sub(r"_\d\.0$", "", name)]: a match can only sit at the end of the
    string or before a final newline. *)
Definition strip_suffix (name : string) : string :=
  let n := String.length name in
  if is_suffix_pattern (substring (n - 4) 4 name) && (4 <=? n)%nat then
    substring 0 (n - 4) name
  else if (5 <=? n)%nat && String.eqb (substring (n - 1) 1 name) (String "010" EmptyString)
          && is_suffix_pattern (substring (n - 5) 4 name) then
    substring 0 (n - 5) name +:+ String "010" EmptyString
  else name.

(** A name with the breakdown suffix [_<digit>.0]. *)
Definition with_suffix (name : string) (d : ascii) : string :=
  name +:+ String "_" (String d (String "." (String "0" EmptyString))).

(** The parameters [get_option_mask] declares (line 91). *)
Definition get_option_mask_params : list string := ["question_df"; "variables"].

(** [get_option_mask] (lines 91-106). *)
Definition get_option_mask (question_df : list question_row)
    (variables : gmap string var_props) : result (list bool) :=
  match question_df with
  | [] => Raise (IndexError "values[0]")
  | first :: _ =>
      let original_name := strip_suffix (variable first) in
      match variables !! original_name with
      | None => Raise (KeyError original_name)
      | Some props =>
          if match var_type props with
             | Some t => String.eqb t "dict"
             | None => false
             end
          then
            Ok (map (fun r =>
                       String.eqb (option_label r) "Good"
                       || (String.eqb (option_label r) "Yes"
                           || String.eqb (option_label r) "Passed"))
                    question_df)
          else Ok (map (fun _ => true) question_df)
      end
  end.

(** *** [read_tables_from_sqlite] (lines 12-29) *)

(** What happens to the connection. *)
Inductive sql_event : Type :=
  | Connect
  | Select (table_name : string)
  | Close.

(** The [table_names] argument: a bare string or a list of names. *)
Inductive table_names_arg : Type :=
  | OneName (name : string)
  | Names (names : list string).

Section ReadTables.

(** A table as pandas holds it. *)
Variable frame : Type.

(** [pd.read_sql("select * from <name>", con=connection, index_col=...)] *)
Variable read_sql : string -> result frame.

(** [pd.concat(tables, axis=1)] *)
Variable concat : list frame -> result frame.

(** Lines 19-21: the tables read so far, with the queries made. *)
Fixpoint read_each (table_names : list string)
  : list sql_event * result (list frame) :=
  match table_names with
  | [] => ([], Ok [])
  | table_name :: rest =>
      match read_sql table_name with
      | Raise e => ([Select table_name], Raise e)
      | Ok df =>
          let '(events, tables) := read_each rest in
          (Select table_name :: events,
           match tables with
           | Ok dfs => Ok (df :: dfs)
           | Raise e => Raise e
           end)
      end
  end.

(** Lines 22-25. *)
Definition combine_tables (tables : list frame) : result frame :=
  if (1 <? length tables)%nat then concat tables
  else match tables with
       | df :: _ => Ok df
       | [] => Raise (IndexError "tables[0]")
       end.

(** [read_tables_from_sqlite]: what is done to the connection, and the
    result.  [connection.close()] on line 27 is reached only when nothing
    raised before it. *)
Definition read_tables_from_sqlite (table_names : table_names_arg)
  : list sql_event * result frame :=
  let names :=
    match table_names with
    | OneName name => [name]
    | Names names => names
    end in
  let '(events, tables) := read_each names in
  match tables ≫= combine_tables with
  | Ok tables_df => (Connect :: events ++ [Close], Ok tables_df)
  | Raise e => (Connect :: events, Raise e)
  end.

End ReadTables.

End Utils.

(** ** Keyword arguments at a call site *)

Module Call.

(** Binding a call made of keyword arguments only to a function whose
    parameters all have defaults (or are all supplied): the first keyword
    that is no parameter raises [TypeError: ... got an unexpected keyword
    argument]. *)
Definition bind_keywords (callee : string) (params keywords : list string)
  : result unit :=
  match List.find (fun k => negb (existsb (String.eqb k) params)) keywords with
  | Some k => Raise (UnexpectedKeyword callee k)
  | None => Ok tt
  end.

End Call.

(** ** The orchestrator: [domain_analyse_classes.py] *)

Module DomainAnalyser.

Import Py.

(** The parameters of [__init__] (lines 34-61), [self] apart. *)
Definition init_params : list string :=
  ["cache_file"; "cache_directory"; "image_directory"; "tex_prepend_path";
   "output_file"; "reset"; "records_filename"; "internet_nl_filename";
   "statistics"; "variables"; "module_info"; "weights"; "url_key";
   "translations"; "breakdown_labels"; "module_key"; "variable_key";
   "sheet_renames"; "n_digits"; "write_dataframe_to_sqlite";
   "statistics_to_xls"; "plot_statistics"; "plot_info"; "show_plots";
   "image_type"; "max_plots"].

(** The keywords of the two calls of [get_option_mask] in [make_plots]
    (lines 411-412 and 424-426). *)
Definition make_plots_mask_keywords : list string :=
  ["question_df"; "variables"; "question_type"].

(** The call of line 411, with the function [utils.py] defines. *)
Definition make_plots_option_mask (question_df : list Utils.question_row)
    (variables : gmap string Utils.var_props) (question_type : option string)
  : result (list bool) :=
  _ ← Call.bind_keywords "get_option_mask" Utils.get_option_mask_params
        make_plots_mask_keywords;
  Utils.get_option_mask question_df variables.

(** *** Sheet names in [write_statistics] (lines 158-191) *)

(** What the list [sheets] can hold: line 190 appends the list itself. *)
Inductive sheets_item : Type :=
  | SheetName (s : string)
  | SheetsList.

(** [sheet_name in sheets]: a string equals no list. *)
Definition in_sheets (sheet_name : string) (sheets : list sheets_item) : bool :=
  existsb (fun it => match it with
                     | SheetName s => String.eqb s sheet_name
                     | SheetsList => false
                     end) sheets.

(** The list [sheets] only ever holds itself. *)
Definition only_itself (sheets : list sheets_item) : Prop :=
  Forall (fun it => it = SheetsList) sheets.

(** [{:02d}.format(cnt)] *)
Definition format_02d (cnt : nat) : string :=
  let digits := NilZero.string_of_uint (Nat.to_uint cnt) in
  if (String.length digits <? 2)%nat then "0" +:+ digits else digits.

Section WriteStatistics.

(** [re.sub(pattern, replace, text)] *)
Variable re_sub : string -> string -> string -> string.

(** [sheet_renames]: rule name to its pattern and replacement. *)
Variable sheet_renames : option (list (string * (string * string))).

(** Lines 179-188. *)
Definition sheet_name_of (sheets : list sheets_item) (cnt : nat)
    (file_base : string) : string :=
  let renamed :=
    match sheet_renames with
    | None => file_base
    | Some rules =>
        fold_left (fun name rule => re_sub (fst (snd rule)) (snd (snd rule)) name)
          rules file_base
    end in
  let short :=
    if (32 <? String.length renamed)%nat then substring 0 32 renamed
    else renamed in
  if in_sheets short sheets then substring 0 30 short +:+ format_02d cnt
  else short.

(** The loop of lines 163-191: the sheet names handed to [to_excel], in
    order. *)
Fixpoint sheet_names (sheets : list sheets_item) (cnt : nat)
    (breakdowns : list string) : list string :=
  match breakdowns with
  | [] => []
  | file_base :: rest =>
      sheet_name_of sheets cnt file_base
      :: sheet_names (sheets ++ [SheetsList]) (S cnt) rest
  end.

Definition write_statistics (breakdowns : list string) : list string :=
  sheet_names [] 0 breakdowns.

End WriteStatistics.

(** *** Duplicate columns in [write_data] (lines 277-284) *)

Section WriteData.

(** [str.lower] *)
Variable lower : string -> string.

(** [Counter(...)]: the distinct items in order of first appearance, each
    with its number of occurrences. *)
Fixpoint counter_add (x : string) (c : list (string * nat))
  : list (string * nat) :=
  match c with
  | [] => [(x, 1%nat)]
  | (y, n) :: rest =>
      if String.eqb x y then (y, S n) :: rest else (y, n) :: counter_add x rest
  end.

Definition Counter (l : list string) : list (string * nat) :=
  fold_left (fun c x => counter_add x c) l [].

(** [dataframe.drop([col], axis=1)]: every column with that label goes. *)
Definition drop (col : string) (t : Utils.table) : Utils.table :=
  List.filter (fun lc => negb (String.eqb (fst lc) col)) t.

(** Lines 279-284 for one item of the counter. *)
Definition drop_duplicated (t : Utils.table) (item : string * nat)
  : Utils.table :=
  if (1 <? snd item)%nat then
    match List.find (fun col => String.eqb (lower col) (fst item))
            (Utils.labels t) with
    | Some col => drop col t
    | None => t
    end
  else t.

(** Lines 277-284: the table that is handed to [to_sql]. *)
Definition write_data (t : Utils.table) : Utils.table :=
  fold_left drop_duplicated (Counter (map lower (Utils.labels t))) t.

(** Words for the statement about [write_data]. *)

(** Occurrences of a name in a list of names. *)
Definition occurrences (g : string) (l : list string) : nat :=
  length (List.filter (String.eqb g) l).

(** The count a counter holds for a name, 0 when it holds none. *)
Fixpoint counter_get (g : string) (c : list (string * nat)) : nat :=
  match c with
  | [] => 0
  | (y, n) :: rest => if String.eqb g y then n else counter_get g rest
  end.

(** The first column name, in column order, with a given lowercase form. *)
Definition first_spelling (t : Utils.table) (g : string) : option string :=
  List.find (fun col => String.eqb (lower col) g) (Utils.labels t).

(** A column goes exactly when its lowercase name occurs more than once
    and its own name is the first spelling of that lowercase name. *)
Definition is_dropped (t : Utils.table) (col : string) : bool :=
  (1 <? occurrences (lower col) (map lower (Utils.labels t)))%nat
  && match first_spelling t (lower col) with
     | Some c => String.eqb col c
     | None => false
     end.

(** The columns still there once the names in [done] have had their turn. *)
Definition kept_after (t : Utils.table) (done : list string)
    (lc : string * list Py.value) : bool :=
  negb (is_dropped t (fst lc) && existsb (String.eqb (lower (fst lc))) done).

End WriteData.

(** *** Value translation of one variable in [read_data] (lines 324-332) *)

(** [Series.map(trans)] with a dict: a value that is no key of the dict
    becomes NaN. *)
Fixpoint pd_get {V : Type} (k : value) (d : dict V) : option V :=
  match d with
  | [] => None
  | (k', v) :: rest => if pd_eq k k' then Some v else pd_get k rest
  end.

Definition series_map (trans : dict value) (column : list value) : list value :=
  map (fun c => match pd_get c trans with
                | Some target => target
                | None => VNum NNaN
                end) column.

Definition translate_variable (var_translate : option (dict value))
    (column : list value) : list value :=
  match var_translate with
  | None => column
  | Some trans =>
      if intersects (keys trans) (unique column) then series_map trans column
      else column
  end.

(** *** The merged dataset in [read_data] (lines 339-343)

    Here a table is read row by row: its column labels and its rows, each
    row as long as the list of labels. *)

Record DataFrame : Type := mkFrame {
  columns : list string;
  rows : list (list value)
}.

Fixpoint index_of (label : string) (cols : list string) : option nat :=
  match cols with
  | [] => None
  | c :: rest =>
      if String.eqb label c then Some 0%nat
      else option_map S (index_of label rest)
  end.

Fixpoint remove_at {A : Type} (i : nat) (l : list A) : list A :=
  match l, i with
  | [], _ => []
  | _ :: rest, O => rest
  | x :: rest, S i' => x :: remove_at i' rest
  end.

Definition at_index (i : nat) (row : list value) : value := nth i row VNone.

(** The cell of a row under a label. *)
Definition cell (cols : list string) (label : string) (row : list value)
  : value :=
  match index_of label cols with
  | Some i => at_index i row
  | None => VNone
  end.

(** pandas' suffix for a label that both sides of a merge carry and that is
    not the join key. *)
Definition suffixed (on suffix : string) (other : list string) (c : string)
  : string :=
  if negb (String.eqb c on) && existsb (String.eqb c) other then c +:+ suffix
  else c.

Definition merged_columns (left right : DataFrame) (on : string) (j : nat)
  : list string :=
  map (suffixed on "_x" (columns right)) (columns left)
  ++ map (suffixed on "_y" (columns left)) (remove_at j (columns right)).

(** Equality of the keys of a merge: equal values, and every missing key
    matches every missing key ([None] as well as NaN), since pandas gives
    all of them one label. *)
Definition merge_eq (x y : value) : bool :=
  (is_missing x && is_missing y) || pd_eq x y.

(** The rows of an inner join: each left row, in order, beside each right
    row, in order, that carries the same key; the key column is kept
    once. *)
Definition joined_rows (i j : nat) (left right : list (list value))
  : list (list value) :=
  flat_map
    (fun l =>
       map (fun r => l ++ remove_at j r)
         (List.filter (fun r => merge_eq (at_index i l) (at_index j r)) right))
    left.

(** [pd.merge(left=..., right=..., on=...)], an inner join by default. *)
Definition merge (left right : DataFrame) (on : string) : result DataFrame :=
  match index_of on (columns left), index_of on (columns right) with
  | Some i, Some j =>
      Ok (mkFrame (merged_columns left right on j)
            (joined_rows i j (rows left) (rows right)))
  | _, _ => Raise (KeyError on)
  end.

(** [dropna(subset=[label], axis='index', how='any')] *)
Definition dropna (df : DataFrame) (label : string) : result DataFrame :=
  match index_of label (columns df) with
  | Some w =>
      Ok (mkFrame (columns df)
            (List.filter (fun r => negb (is_missing (at_index w r))) (rows df)))
  | None => Raise (KeyError label)
  end.

(** [df[~df[label].duplicated()]] on the rows: a row goes when an earlier
    row carries the same value. *)
Fixpoint first_occurrences (b : nat) (seen : list value)
    (rs : list (list value)) : list (list value) :=
  match rs with
  | [] => []
  | r :: rest =>
      if existsb (pd_eq (at_index b r)) seen then first_occurrences b seen rest
      else r :: first_occurrences b (at_index b r :: seen) rest
  end.

Definition drop_duplicates (df : DataFrame) (label : string)
  : result DataFrame :=
  match index_of label (columns df) with
  | Some b => Ok (mkFrame (columns df) (first_occurrences b [] (rows df)))
  | None => Raise (KeyError label)
  end.

(** Line 80: [self.be_id = "be_id"]. *)
Definition be_id : string := "be_id".

(** Lines 339-343.  [set_index] on line 343 returns a new table that is
    dropped, so it changes nothing. *)
Definition merge_dataset (records tables : DataFrame)
    (url_key weight_key : string) : result DataFrame :=
  df ← merge records tables url_key;
  df ← dropna df weight_key;
  drop_duplicates df be_id.

(** *** [calculate_statistics_one_breakdown] (lines 193-247) *)

(** A row of the variable-metadata table as the loop reads it. *)
Record variable_row : Type := mkVariableRow {
  row_module : string;
  row_type : string;
  row_filter : option string;
  row_gewicht : string
}.

(** [all_stats[var_key] = stats]: an existing key keeps its place. *)
Fixpoint stats_set {S : Type} (all_stats : list (string * S))
    (var_key : string) (stats : S) : list (string * S) :=
  match all_stats with
  | [] => [(var_key, stats)]
  | (k, v) :: rest =>
      if String.eqb var_key k then (k, stats) :: rest
      else (k, v) :: stats_set rest var_key stats
  end.

Section OneBreakdown.

(** The results of the routines of [ict_analyser]. *)
Variables selection weights statistic : Type.

(** [VariableProperties(variables=..., column=var_key)] *)
Variable variable_properties : string -> result unit.

(** [dataframe.loc[:, list(weight_cols)]] *)
Variable select_weights : list string -> result weights.

(** [get_records_select(...)] for a variable *)
Variable get_records_select : string -> variable_row -> result selection.

(** [SampleStatistics(...).records_weighted_mean_agg] *)
Variable sample_statistics :
  list string -> selection -> weights -> variable_row -> result statistic.

(** [self.module_info]: module name to its [include] entry, if it has
    one. *)
Variable module_info : gmap string (option bool).

(** The loop of lines 201-245 over [self.variables.iterrows()]. *)
Fixpoint statistics_loop (group_by : list string)
    (rows : list (string * variable_row))
    (all_stats : list (string * statistic))
  : result (list (string * statistic)) :=
  match rows with
  | [] => Ok all_stats
  | (var_key, var_prop) :: rest =>
      _ ← variable_properties var_key;
      match module_info !! row_module var_prop with
      | None => Raise (KeyError (row_module var_prop))
      | Some module =>
          if negb (default true module) then
            statistics_loop group_by rest all_stats
          else
            let var_weight_key := row_gewicht var_prop in
            df_weights ←
              select_weights
                [var_weight_key; "ratio_" +:+ var_weight_key; "ratio_units"];
            match get_records_select var_key var_prop with
            | Raise (KeyError _) => statistics_loop group_by rest all_stats
            | Raise e => Raise e
            | Ok data =>
                stats ← sample_statistics group_by data df_weights var_prop;
                statistics_loop group_by rest
                  (stats_set all_stats var_key stats)
            end
      end
  end.

Definition calculate_statistics_one_breakdown (group_by : list string)
    (rows : list (string * variable_row))
  : result (list (string * statistic)) :=
  statistics_loop group_by rows [].

End OneBreakdown.

(** *** Plot caches and [make_plots] (lines 353-448) *)

(** A computation that can also end the process: [sys.exit(code)]. *)
Inductive outcome (A : Type) : Type :=
  | Done (a : A)
  | Failed (e : exn)
  | SystemExit (code : Z).

Arguments Done {A} a.
Arguments Failed {A} e.
Arguments SystemExit {A} code.

#[global] Instance outcome_ret : MRet outcome := fun A a => Done a.

#[global] Instance outcome_bind : MBind outcome := fun A B k m =>
  match m with
  | Done a => k a
  | Failed e => Failed e
  | SystemExit code => SystemExit code
  end.

(** A reorganised statistics table as the plot loop reads it: the groups
    of the first index level, each with the groups of the second level,
    each with its rows. *)
Definition stats_table : Type :=
  list (string * list (string * list Utils.question_row)).

(** The plot catalog: variable name to report label to image file. *)
Definition catalog : Type := list (string * list (string * string)).

(** [all_plots[original_name][label] = image_file] *)
Fixpoint catalog_set (all_plots : catalog) (original_name label : string)
    (image_file : string) : catalog :=
  match all_plots with
  | [] => [(original_name, [(label, image_file)])]
  | (k, plots) :: rest =>
      if String.eqb original_name k then
        (k, stats_set plots label image_file) :: rest
      else (k, plots) :: catalog_set rest original_name label image_file
  end.

(** An entry of [plot_info]. *)
Record plot_prop : Type := mkPlot {
  do_it : option bool;
  reference_lines : option (list string);
  plot_label : option string;
  use_breakdown_keys : option bool
}.

Section Plots.

Variable path_join : string -> string -> string.
Variable cache_directory : string.

(** [make_plot_cache_file_name] (lines 353-354) *)
Definition make_plot_cache_file_name (file_base : string) : string :=
  path_join cache_directory (file_base +:+ "_cache_for_plot.pkl").

(** [get_plot_cache] (lines 356-366): a missing file ends the process with
    status -1. *)
Definition get_plot_cache (disk : gmap string stats_table)
    (plot_key : string) : outcome stats_table :=
  match disk !! make_plot_cache_file_name plot_key with
  | Some stats_df => Done stats_df
  | None => SystemExit (-1)
  end.

Variable variables : gmap string Utils.var_props.

(** [self.breakdown_labels]: the breakdowns that have labels. *)
Variable breakdown_labels : option (list string).

Variable max_plots : option nat.

(** Lines 414-439: the slice of the table, the reference lines and
    [make_bar_plot], giving the image file. *)
Variable render :
  string -> string -> string -> list Utils.question_row -> list bool ->
  outcome string.

(** Lines 404-442 for one question. *)
Definition plot_question (plot_key label module_name : string)
    (all_plots : catalog) (question : string * list Utils.question_row)
  : outcome catalog :=
  match snd question with
  | [] => Failed (IndexError "values[0]")
  | first :: _ =>
      let original_name := Utils.strip_suffix (Utils.variable first) in
      match variables !! original_name with
      | None => Failed (KeyError original_name)
      | Some props =>
          let all_plots :=
            if existsb (String.eqb original_name) (map fst all_plots)
            then all_plots else all_plots ++ [(original_name, [])] in
          match make_plots_option_mask (snd question) variables
                  (Utils.var_type props) with
          | Raise e => Failed e
          | Ok mask =>
              image_file ←
                render plot_key module_name (fst question) (snd question) mask;
              Done (catalog_set all_plots original_name label image_file)
          end
      end
  end.

(** The inner loop (lines 401-448): the catalog, the plot count and
    whether the maximum was reached. *)
Fixpoint plot_questions (plot_key label module_name : string)
    (questions : list (string * list Utils.question_row))
    (all_plots : catalog) (plot_count : nat)
  : outcome (catalog * nat * bool) :=
  match questions with
  | [] => Done (all_plots, plot_count, false)
  | question :: rest =>
      all_plots ← plot_question plot_key label module_name all_plots question;
      let plot_count := S plot_count in
      if bool_decide (max_plots = Some plot_count) then
        Done (all_plots, plot_count, true)
      else plot_questions plot_key label module_name rest all_plots plot_count
  end.

(** The outer loop (lines 397-400). *)
Fixpoint plot_modules (plot_key label : string) (modules : stats_table)
    (all_plots : catalog) (plot_count : nat) (stop_plotting : bool)
  : outcome catalog :=
  match modules with
  | [] => Done all_plots
  | (module_name, questions) :: rest =>
      if stop_plotting then Done all_plots
      else
        r ← plot_questions plot_key label module_name questions all_plots
              plot_count;
        plot_modules plot_key label rest (fst (fst r)) (snd (fst r)) (snd r)
  end.

(** Lines 381-383: the caches of the reference lines. *)
Fixpoint load_reference_lines (disk : gmap string stats_table)
    (ref_keys : list string) : outcome unit :=
  match ref_keys with
  | [] => Done tt
  | ref_key :: rest =>
      _ ← get_plot_cache disk ref_key;
      load_reference_lines disk rest
  end.

(** Lines 388-391: [self.breakdown_labels[plot_key]]. *)
Definition breakdown_of (plot_key : string) : outcome unit :=
  match breakdown_labels with
  | None => Failed (TypeError "subscript")
  | Some keys =>
      if existsb (String.eqb plot_key) keys then Done tt
      else Failed (KeyError plot_key)
  end.

(** The body of the loop over [plot_info] (lines 373-448). *)
Definition make_plot (disk : gmap string stats_table) (all_plots : catalog)
    (plot : string * plot_prop) : outcome catalog :=
  if negb (default true (do_it (snd plot))) then Done all_plots
  else
    stats_df ← get_plot_cache disk (fst plot);
    _ ← match reference_lines (snd plot) with
        | None => Done tt
        | Some ref_keys => load_reference_lines disk ref_keys
        end;
    let label := default (fst plot) (plot_label (snd plot)) in
    _ ← (if default false (use_breakdown_keys (snd plot))
         then breakdown_of (fst plot) else Done tt);
    plot_modules (fst plot) label stats_df all_plots 0 false.

Fixpoint make_plots_from (disk : gmap string stats_table)
    (plot_info : list (string * plot_prop)) (all_plots : catalog)
  : outcome catalog :=
  match plot_info with
  | [] => Done all_plots
  | plot :: rest =>
      all_plots ← make_plot disk all_plots plot;
      make_plots_from disk rest all_plots
  end.

(** [make_plots] (lines 368-448): the catalog it leaves in
    [self.all_plots]. *)
Definition make_plots (disk : gmap string stats_table)
    (plot_info : list (string * plot_prop)) : outcome catalog :=
  make_plots_from disk plot_info [].

End Plots.

End DomainAnalyser.

(** ** The command-line driver: [domein_analyse.py] *)

Module Driver.

(** A settings document as [yaml.load] returns it. *)
#[local] Set Warnings "-register-all".
Inductive yaml : Type :=
  | YNull
  | YBool (b : bool)
  | YInt (n : Z)
  | YStr (s : string)
  | YSeq (items : list yaml)
  | YMap (items : list (string * yaml)).

Fixpoint assoc {V : Type} (key : string) (items : list (string * V))
  : option V :=
  match items with
  | [] => None
  | (k, v) :: rest => if String.eqb key k then Some v else assoc key rest
  end.

(** [doc[key]] *)
Definition getitem (doc : yaml) (key : string) : result yaml :=
  match doc with
  | YMap items =>
      match assoc key items with
      | Some v => Ok v
      | None => Raise (KeyError key)
      end
  | _ => Raise (TypeError "subscript")
  end.

(** [doc.get(key, default)] *)
Definition get (doc : yaml) (key : string) (default : yaml) : result yaml :=
  match doc with
  | YMap items =>
      match assoc key items with
      | Some v => Ok v
      | None => Ok default
      end
  | _ => Raise (AttributeError "get")
  end.

(** [Path(x)] accepts a string only. *)
Definition as_path (x : yaml) : result string :=
  match x with
  | YStr s => Ok s
  | _ => Raise (TypeError "Path")
  end.

(** The parsed command line, as far as [main] reads it. *)
Record arguments : Type := mkArgs {
  settings_filename : string;
  working_directory : option string;
  output_filename : option string;
  reset : bool
}.

Section Main.

(** Whether [os.chdir] into a directory succeeds. *)
Variable is_dir : string -> bool.

(** What running the body of [DomainAnalyser.__init__] on bound arguments
    would give. *)
Variable init_body : list (string * yaml) -> result unit.

(** A call [DomainAnalyser(k1=v1, ...)]. *)
Definition construct (kwargs : list (string * yaml)) : result unit :=
  _ ← Call.bind_keywords "__init__" DomainAnalyser.init_params
        (map fst kwargs);
  init_body kwargs.

(** [main] up to the call (lines 51-69): the keyword arguments of the
    call of lines 70-78. *)
Definition call_arguments (args : arguments) (settings : yaml)
  : result (list (string * yaml)) :=
  general_settings ← getitem settings "general";
  statistics ← getitem settings "statistics";
  translations ← getitem settings "translations";
  gk_data ← getitem settings "gk_data";
  variables ← getitem settings "variables";
  weights ← getitem settings "weight";
  output_file ←
    match output_filename args with
    | None => get general_settings "output" (YStr "internet_nl_stats")
    | Some name => Ok (YStr name)
    end;
  directory ←
    match working_directory args with
    | None => d ← get general_settings "working_directory" (YStr "."); as_path d
    | Some d => Ok d
    end;
  if is_dir directory then
    Ok [("reset", YBool (reset args)); ("output_file", output_file);
        ("statistics", statistics); ("gk_data", gk_data);
        ("variables", variables); ("weights", weights);
        ("translations", translations)]
  else Raise (OSError directory).

(** [main] (lines 42-78), given the loaded settings document. *)
Definition main (args : arguments) (settings : yaml) : result unit :=
  kwargs ← call_arguments args settings;
  construct kwargs.

End Main.

End Driver.

(** ** The extractor of the tldextract package

    [tldextract.extract] as the package documents and implements it
    (releases 2.2 to 3.1): the network location is cut out of the URL and
    split into labels at its dots; the longest run of final labels that
    matches a rule of the public suffix list is the suffix, the label
    before it is the domain.  The list itself, IDNA decoding, the test
    for IP addresses and the string methods [lower] and [strip] are
    parameters. *)

Module Tldextract.

Import Py Utils.

Definition is_scheme_char (c : ascii) : bool :=
  let n := nat_of_ascii c in
  ((97 <=? n) && (n <=? 122) || (65 <=? n) && (n <=? 90)
   || (48 <=? n) && (n <=? 57) || (n =? 43) || (n =? 45) || (n =? 46))%nat.

(** Python's white space in ASCII. *)
Definition is_space (c : ascii) : bool :=
  let n := nat_of_ascii c in
  ((9 <=? n) && (n <=? 13) || (28 <=? n) && (n <=? 32))%nat.

(** The characters at which the extractor cuts a URL. *)
Definition is_delim (c : ascii) : bool :=
  existsb (Ascii.eqb c) ["/"; "?"; "#"; "@"; ":"; "."]%char.

(** [c in s] for a character. *)
Fixpoint has_char (c : ascii) (s : string) : bool :=
  match s with
  | EmptyString => false
  | String x rest => Ascii.eqb x c || has_char c rest
  end.

(** The longest prefix of characters of a class, and the rest. *)
Fixpoint span (p : ascii -> bool) (s : string) : string * string :=
  match s with
  | EmptyString => (EmptyString, EmptyString)
  | String c rest =>
      if p c then let '(a, b) := span p rest in (String c a, b)
      else (EmptyString, s)
  end.

(** [s.startswith(p)] *)
Fixpoint starts_with (p s : string) : bool :=
  match p, s with
  | EmptyString, _ => true
  | String a p', String b s' => Ascii.eqb a b && starts_with p' s'
  | String _ _, EmptyString => false
  end.

Definition drop_chars (n : nat) (s : string) : string :=
  substring n (String.length s - n) s.

(** [SCHEME_RE.sub("", url)] with [SCHEME_RE = ^([a-zA-Z0-9+.-]+:)?//]. *)
Definition strip_scheme (url : string) : string :=
  let '(scheme, rest) := span is_scheme_char url in
  if negb (String.eqb scheme "") && starts_with "://" rest then
    drop_chars 3 rest
  else if starts_with "//" url then drop_chars 2 url
  else url.

(** [s.partition(c)[0]] *)
Fixpoint before_first (c : ascii) (s : string) : string :=
  match s with
  | EmptyString => EmptyString
  | String x rest =>
      if Ascii.eqb x c then EmptyString else String x (before_first c rest)
  end.

(** [s.split(c)] *)
Fixpoint split_on (c : ascii) (s : string) : list string :=
  match s with
  | EmptyString => [EmptyString]
  | String x rest =>
      if Ascii.eqb x c then EmptyString :: split_on c rest
      else match split_on c rest with
           | [] => [String x EmptyString]
           | first :: others => String x first :: others
           end
  end.

Fixpoint lstrip (p : ascii -> bool) (s : string) : string :=
  match s with
  | EmptyString => EmptyString
  | String x rest => if p x then lstrip p rest else s
  end.

Fixpoint rstrip (p : ascii -> bool) (s : string) : string :=
  match s with
  | EmptyString => EmptyString
  | String x rest =>
      match rstrip p rest with
      | EmptyString => if p x then EmptyString else String x EmptyString
      | kept => String x kept
      end
  end.

(** [".".join(labels)] *)
Fixpoint join_dots (labels : list string) : string :=
  match labels with
  | [] => EmptyString
  | [l] => l
  | l :: rest => l +:+ "." +:+ join_dots rest
  end.

(** [str.strip] on ASCII text. *)
Definition ascii_strip (s : string) : string :=
  rstrip is_space (lstrip is_space s).

Section Extract.

(** [str.lower] and [str.strip] *)
Variable lower : string -> string.
Variable strip : string -> string.

(** The network location of a URL. *)
Definition netloc_of (url : string) : string :=
  let s := strip_scheme url in
  let s := before_first "/" s in
  let s := before_first "?" s in
  let s := before_first "#" s in
  let s := List.last (split_on "@" s) EmptyString in
  let s := before_first ":" s in
  let s := strip s in
  rstrip (Ascii.eqb ".") s.

(** Membership in the rules of the public suffix list. *)
Variable tlds : string -> bool.

(** [idna.decode]; [None] when it raises. *)
Variable idna_decode : string -> option string.

Variable looks_like_ip : string -> bool.

Definition decode_punycode (label : string) : string :=
  let lowered := lower label in
  if starts_with "xn--" lowered then
    match idna_decode lowered with
    | Some decoded => decoded
    | None => lowered
    end
  else lowered.

(** [suffix_index]: the position of the first label of the suffix, the
    number of labels when no rule matches.  [i] counts the labels already
    passed. *)
Fixpoint suffix_index (i : nat) (spl : list string) : nat :=
  match spl with
  | [] => i
  | _ :: rest =>
      let maybe_tld := join_dots spl in
      if tlds ("!" +:+ maybe_tld) then S i
      else if tlds maybe_tld then i
      else if tlds ("*." +:+ join_dots rest) then i
      else suffix_index (S i) rest
  end.

Definition extract_str (url : string) : ExtractResult :=
  let netloc := netloc_of url in
  let labels := split_on "." netloc in
  let translations := map decode_punycode labels in
  let index := suffix_index 0 translations in
  let suffix := join_dots (skipn index labels) in
  if String.eqb suffix "" && negb (String.eqb netloc "")
     && looks_like_ip netloc
  then mkExtract "" netloc ""
  else
    match index with
    | O => mkExtract "" "" suffix
    | S before =>
        mkExtract (join_dots (firstn before labels))
          (nth before labels EmptyString) suffix
    end.

(** A value that is no string makes the regular expression raise
    [TypeError]. *)
Definition extract (url : value) : result ExtractResult :=
  match url with
  | VStr s => Ok (extract_str s)
  | _ => Raise (TypeError "expected string or bytes-like object")
  end.

End Extract.

(** A few rules of the public suffix list. *)
Definition sample_tlds (rule : string) : bool :=
  existsb (String.eqb rule) ["com"; "nl"; "org"; "net"; "uk"; "co.uk"].

End Tldextract.

(** ** Sample inputs *)

(** Paths as the pipeline writes them, relative to the working directory. *)
Definition sample_join (directory file : string) : string :=
  directory +:+ "/" +:+ file.

(** A settings document with the six sections, run in the current
    directory. *)
Definition sample_settings : Driver.yaml :=
  Driver.YMap
    [("general", Driver.YMap [("output", Driver.YStr "stats")]);
     ("statistics", Driver.YMap []);
     ("translations", Driver.YMap []);
     ("gk_data", Driver.YMap []);
     ("variables", Driver.YMap []);
     ("weight", Driver.YStr "ratio_units")].

Definition sample_arguments : Driver.arguments :=
  Driver.mkArgs "settings.yml" None None false.

(** A categorical variable and the rows of its question. *)
Definition sample_variables : gmap string Utils.var_props :=
  {["tls_available" := Utils.mkVar (Some "dict") None]}.

Definition sample_question : list Utils.question_row :=
  [Utils.mkRow "tls_available_1.0" "Passed";
   Utils.mkRow "tls_available_1.0" "Failed";
   Utils.mkRow "tls_available_1.0" "Yes";
   Utils.mkRow "tls_available_1.0" "No"].

(** The translation set of the specification's example. *)
Definition ja_nee : Utils.translations :=
  [("bool", [(Py.VStr "Ja", Py.NInt 1); (Py.VStr "Nee", Py.NInt 0)])].

(** A table of three rows whose second column shares a value with the
    first. *)
Definition two_columns : Utils.table :=
  [("a", [Py.VStr "Ja"; Py.VStr "Nee"; Py.VStr "Onbekend"]);
   ("b", [Py.VStr "Onbekend"; Py.VStr "Anders"; Py.VStr "Onbekend"])].

(** The specification's scenario: three businesses with weights 1, 2 and
    none; the scan has the domains of the first and the third. *)
Definition sample_records : DomainAnalyser.DataFrame :=
  DomainAnalyser.mkFrame ["be_id"; "website_url"; "ratio_units"]
    [[Py.VNum (Py.NInt 1); Py.VStr "alpha"; Py.VNum (Py.NInt 1)];
     [Py.VNum (Py.NInt 2); Py.VStr "beta"; Py.VNum (Py.NInt 2)];
     [Py.VNum (Py.NInt 3); Py.VStr "gamma"; Py.VNone]].

Definition sample_tables : DomainAnalyser.DataFrame :=
  DomainAnalyser.mkFrame ["website_url"; "score"]
    [[Py.VStr "alpha"; Py.VNum (Py.NInt 80)];
     [Py.VStr "gamma"; Py.VNum (Py.NInt 55)]].

(** The extractor over the sample rules, without IDNA names or IP
    addresses. *)
Definition sample_extract : Py.value -> result Utils.ExtractResult :=
  Tldextract.extract str_lower Tldextract.ascii_strip Tldextract.sample_tlds
    (fun _ => None) (fun _ => false).

(** * Properties *)

(** ** The reset / cache state machine *)

Section StateMachineFacts.

Import Pipeline.

Variable path_join : string -> string -> string.
Variables cache_file cache_directory : string.

Abbreviation stats_step := (stats_step path_join cache_directory).
Abbreviation calculate_statistics :=
  (calculate_statistics path_join cache_directory).
Abbreviation stats_cache_file := (stats_cache_file path_join cache_directory).

Lemma file_exists_true p st : file_exists p st = true <-> p ∈ disk st.
Proof. unfold file_exists. apply bool_decide_eq_true. Qed.

Lemma file_exists_false p st : file_exists p st = false <-> p ∉ disk st.
Proof. unfold file_exists. apply bool_decide_eq_false. Qed.

Lemma build_step_runs_iff R st :
  build_step_runs cache_file R st = true
  <-> (exists r, R = Some r /\ r <= 1) \/ cache_file ∉ disk st.
Proof.
  unfold build_step_runs. destruct R as [r|].
  - rewrite orb_true_iff, negb_true_iff, file_exists_false, Z.leb_le.
    split; intros [H|H]; eauto. destruct H as (r' & [= <-] & H). by left.
  - rewrite negb_true_iff, file_exists_false.
    split; [by right|]. by intros [(r & [=] & _)|H].
Qed.

Lemma rebuild_from_sources_iff R st :
  rebuild_from_sources cache_file R st = true
  <-> cache_file ∉ disk st \/ R = Some 0.
Proof.
  unfold rebuild_from_sources.
  rewrite orb_true_iff, negb_true_iff, file_exists_false.
  destruct R as [r|].
  - rewrite Z.eqb_eq. split; intros [H|H]; auto.
    + right. by subst.
    + right. by injection H.
  - split; intros [H|H]; auto; done.
Qed.

Lemma stats_cache_reused_iff R fb st :
  stats_cache_reused path_join cache_directory R fb st = true
  <-> stats_cache_file fb ∈ disk st /\ R = None.
Proof.
  unfold stats_cache_reused.
  rewrite andb_true_iff, file_exists_true.
  destruct R; split; intros [H1 H2]; split; auto; done.
Qed.

(** The statistics loop never touches the in-memory dataset. *)
Lemma calculate_statistics_dataframe R statistics st :
  dataframe (calculate_statistics R statistics st) = dataframe st.
Proof.
  revert st. induction statistics as [|fb rest IH]; intros st; [done|].
  simpl. rewrite IH. unfold Pipeline.stats_step.
  by destruct (stats_cache_reused _ _ _ _ _).
Qed.

(** With a reset value present no statistics cache is ever read. *)
Lemma calculate_statistics_forced r statistics st :
  trace (calculate_statistics (Some r) statistics st)
  = trace st ++ recompute_all statistics.
Proof.
  revert st. induction statistics as [|fb rest IH]; intros st; simpl.
  - by rewrite app_nil_r.
  - rewrite IH. unfold Pipeline.stats_step, stats_cache_reused.
    rewrite andb_false_r. simpl. by rewrite <- app_assoc.
Qed.

(** Without a reset value, caches that are all on disk are all read, and
    nothing is written. *)
Lemma calculate_statistics_cached statistics st :
  (forall fb, In fb statistics -> stats_cache_file fb ∈ disk st) ->
  calculate_statistics None statistics st
  = emit (map LoadStats statistics) st.
Proof.
  revert st. induction statistics as [|fb rest IH]; intros st Hall.
  - unfold emit. simpl. rewrite app_nil_r. by destruct st.
  - assert (Hfb : stats_step None st fb = emit [LoadStats fb] st).
    { unfold Pipeline.stats_step, stats_cache_reused. rewrite andb_true_r.
      assert (Hin : file_exists (stats_cache_file fb) st = true)
        by (apply file_exists_true, Hall; by left).
      by rewrite Hin. }
    change (calculate_statistics None (fb :: rest) st)
      with (calculate_statistics None rest (stats_step None st fb)).
    rewrite Hfb, IH.
    + unfold emit. simpl. by rewrite <- app_assoc.
    + intros fb' Hin. simpl. apply Hall. by right.
Qed.

End StateMachineFacts.

(** C1.  The reset / cache state machine.  With [R] the effective reset
    value (absent when the [reset] parameter is not supplied, otherwise its
    integer value, 0 or 1 for a boolean) and for every set of files on disk:
    (a) the dataset build step runs, so that the in-memory dataset is set,
    exactly when [R] is present with [R <= 1] or the dataset cache file is
    missing; (b) the step rebuilds from the two source files (and writes the
    cache) exactly when the cache file is missing or [R = 0], and loads the
    cache otherwise; (c) a breakdown's statistics cache is read exactly when
    it exists and [R] is absent, and otherwise the statistics are computed
    and the cache written.  Hence: [R] absent with every cache on disk reads
    the statistics caches only; [R = 0] rebuilds the dataset and all
    statistics; [R = 1] loads a present dataset cache and recomputes all
    statistics; [R >= 2] with the dataset cache on disk skips the build step,
    leaves the dataset unset, and recomputes all statistics. *)
Theorem reset_cache_state_machine
    (path_join : string -> string -> string)
    (cache_file cache_directory : string)
    (reset : option Pipeline.reset_arg)
    (statistics : list string) (files : gset string) :
  let R := Pipeline.effective_reset reset in
  let read_data := Pipeline.read_data cache_file R in
  let stats_step := Pipeline.stats_step path_join cache_directory R in
  let stats_cache_file := Pipeline.stats_cache_file path_join cache_directory in
  let run :=
    Pipeline.init path_join cache_file cache_directory R statistics false files
  in
  (* the effective value *)
  (reset = None -> R = None) /\
  (forall b : bool,
     reset = Some (Pipeline.RBool b) -> R = Some (if b then 1 else 0)) /\
  (* (a) *)
  (Pipeline.dataframe run <> Pipeline.Unset <->
     (exists r, R = Some r /\ r <= 1) \/ cache_file ∉ files) /\
  (* (b) *)
  (forall st,
     (cache_file ∉ Pipeline.disk st \/ R = Some 0 ->
        Pipeline.trace (read_data st)
        = Pipeline.trace st ++ [Pipeline.ReadSources; Pipeline.WriteDatasetCache]
        /\ Pipeline.dataframe (read_data st) = Pipeline.Built
        /\ cache_file ∈ Pipeline.disk (read_data st)) /\
     (~ (cache_file ∉ Pipeline.disk st \/ R = Some 0) ->
        read_data st
        = Pipeline.emit [Pipeline.LoadDatasetCache]
            (Pipeline.set_dataframe Pipeline.Loaded st))) /\
  (* (c) *)
  (forall st fb,
     (stats_cache_file fb ∈ Pipeline.disk st /\ R = None ->
        stats_step st fb = Pipeline.emit [Pipeline.LoadStats fb] st) /\
     (~ (stats_cache_file fb ∈ Pipeline.disk st /\ R = None) ->
        Pipeline.trace (stats_step st fb)
        = Pipeline.trace st ++ [Pipeline.ComputeStats fb; Pipeline.WriteStats fb]
        /\ stats_cache_file fb ∈ Pipeline.disk (stats_step st fb))) /\
  (* consequences *)
  (R = None -> cache_file ∈ files ->
     (forall fb, In fb statistics -> stats_cache_file fb ∈ files) ->
     Pipeline.trace run = map Pipeline.LoadStats statistics
     /\ Pipeline.disk run = files) /\
  (R = Some 0 ->
     Pipeline.trace run
     = [Pipeline.ReadSources; Pipeline.WriteDatasetCache]
       ++ Pipeline.recompute_all statistics) /\
  (R = Some 1 -> cache_file ∈ files ->
     Pipeline.trace run
     = [Pipeline.LoadDatasetCache] ++ Pipeline.recompute_all statistics) /\
  (forall r, R = Some r -> 2 <= r -> cache_file ∈ files ->
     Pipeline.trace run = Pipeline.recompute_all statistics
     /\ Pipeline.dataframe run = Pipeline.Unset).
Proof.
  intros R read_data stats_step stats_cache_file run.
  set (st0 := Pipeline.mkState files Pipeline.Unset []).
  assert (Hrun : run
            = Pipeline.calculate_statistics path_join cache_directory R
                statistics
                (if Pipeline.build_step_runs cache_file R st0
                 then read_data st0 else st0)) by reflexivity.
  assert (Hb : forall st,
            read_data st
            = if Pipeline.rebuild_from_sources cache_file R st
              then Pipeline.write_file cache_file
                     (Pipeline.emit
                        [Pipeline.ReadSources; Pipeline.WriteDatasetCache]
                        (Pipeline.set_dataframe Pipeline.Built st))
              else Pipeline.emit [Pipeline.LoadDatasetCache]
                     (Pipeline.set_dataframe Pipeline.Loaded st))
    by reflexivity.
  split; [by intros -> |].
  split; [by intros [] -> |].
  split.
  { (* (a) *)
    rewrite Hrun, calculate_statistics_dataframe.
    etransitivity; [|apply (build_step_runs_iff cache_file R st0)].
    destruct (Pipeline.build_step_runs cache_file R st0); [|done].
    rewrite Hb. by destruct (Pipeline.rebuild_from_sources _ _ _). }
  split.
  { (* (b) *)
    intros st. rewrite <- rebuild_from_sources_iff, Hb.
    destruct (Pipeline.rebuild_from_sources cache_file R st).
    - split; [|done]. intros _. simpl. split; [done|]. split; [done|].
      set_solver.
    - split; [done|]. by intros _. }
  split.
  { (* (c) *)
    intros st fb. subst stats_step stats_cache_file.
    rewrite <- stats_cache_reused_iff. unfold Pipeline.stats_step.
    destruct (Pipeline.stats_cache_reused path_join cache_directory R fb st).
    - split; [done|]. by intros [].
    - split; [done|]. intros _. simpl. split; [done|]. set_solver. }
  assert (Hskip : cache_file ∈ files ->
            (forall r, R = Some r -> 2 <= r) ->
            Pipeline.build_step_runs cache_file R st0 = false).
  { intros Hin Hr. apply not_true_is_false.
    rewrite build_step_runs_iff. intros [(r & HR & Hle)|Hout]; [|done].
    specialize (Hr r HR). lia. }
  split.
  { (* R absent and every cache on disk *)
    intros HR Hin Hall. rewrite Hrun, Hskip; [|done|by rewrite HR].
    rewrite HR, calculate_statistics_cached; done. }
  split.
  { (* R = 0 *)
    intros HR. rewrite Hrun.
    replace (Pipeline.build_step_runs cache_file R st0) with true.
    2:{ symmetry. apply build_step_runs_iff. left. exists 0. by split. }
    rewrite Hb.
    replace (Pipeline.rebuild_from_sources cache_file R st0) with true.
    2:{ symmetry. apply rebuild_from_sources_iff. by right. }
    rewrite HR. by rewrite calculate_statistics_forced. }
  split.
  { (* R = 1 *)
    intros HR Hin. rewrite Hrun.
    replace (Pipeline.build_step_runs cache_file R st0) with true.
    2:{ symmetry. apply build_step_runs_iff. left. exists 1. by split. }
    rewrite Hb.
    replace (Pipeline.rebuild_from_sources cache_file R st0) with false.
    2:{ symmetry. apply not_true_is_false. rewrite rebuild_from_sources_iff.
        rewrite HR. by intros [Hout|[=]]. }
    rewrite HR. by rewrite calculate_statistics_forced. }
  (* R >= 2 *)
  intros r HR Hr Hin.
  rewrite Hrun, Hskip; [|done|].
  2:{ intros r'. rewrite HR. by intros [= <-]. }
  rewrite calculate_statistics_dataframe. split; [|done].
  rewrite HR. by rewrite calculate_statistics_forced.
Qed.

(** ** The driver's call of the constructor *)

Section DriverFacts.

Import Driver.

Variable is_dir : string -> bool.
Variable init_body : list (string * yaml) -> result unit.

Lemma bind_ok {A B : Type} (m : result A) (k : A -> result B) (b : B) :
  m ≫= k = Ok b -> exists a, m = Ok a /\ k a = Ok b.
Proof. destruct m as [a|e]; [|done]. intros H. by exists a. Qed.

(** Whatever the settings hold, the call names the same seven keywords. *)
Lemma call_arguments_keywords args settings kwargs :
  call_arguments is_dir args settings = Ok kwargs ->
  map fst kwargs
  = ["reset"; "output_file"; "statistics"; "gk_data"; "variables";
     "weights"; "translations"].
Proof.
  unfold call_arguments. intros H.
  repeat (apply bind_ok in H as (? & _ & H)).
  destruct (is_dir _); [|done]. by injection H as <-.
Qed.

Lemma construct_rejects_gk_data kwargs :
  map fst kwargs
  = ["reset"; "output_file"; "statistics"; "gk_data"; "variables";
     "weights"; "translations"] ->
  construct init_body kwargs = Raise (UnexpectedKeyword "__init__" "gk_data").
Proof. unfold construct. by intros ->. Qed.

End DriverFacts.

(** C3.  The constructor of [DomainAnalyser] declares no parameter
    [gk_data], and the driver's call passes one.  So for every settings
    document and command line, [main] never completes a construction; and
    whenever [main] gets as far as the call, the call raises the
    unexpected-keyword error for [gk_data], whatever the body of the
    constructor would do. *)
Theorem driver_passes_undeclared_gk_data
    (is_dir : string -> bool)
    (init_body : list (string * Driver.yaml) -> result unit)
    (args : Driver.arguments) (settings : Driver.yaml) :
  ~ In "gk_data" DomainAnalyser.init_params /\
  (forall u, Driver.main is_dir init_body args settings <> Ok u) /\
  (forall kwargs,
     Driver.call_arguments is_dir args settings = Ok kwargs ->
     In "gk_data" (map fst kwargs) /\
     Driver.construct init_body kwargs
     = Raise (UnexpectedKeyword "__init__" "gk_data") /\
     Driver.main is_dir init_body args settings
     = Raise (UnexpectedKeyword "__init__" "gk_data")).
Proof.
  split.
  { unfold DomainAnalyser.init_params. intros Hin.
    repeat (destruct Hin as [Heq|Hin]; [discriminate Heq|]). exact Hin. }
  split.
  - intros u Hmain. unfold Driver.main in Hmain.
    apply bind_ok in Hmain as (kwargs & Hargs & Hcall).
    apply call_arguments_keywords in Hargs.
    by rewrite (construct_rejects_gk_data init_body kwargs Hargs) in Hcall.
  - intros kwargs Hargs.
    pose proof (call_arguments_keywords is_dir args settings kwargs Hargs)
      as Hkeys.
    split; [rewrite Hkeys; simpl; tauto|].
    split; [by apply construct_rejects_gk_data|].
    unfold Driver.main. rewrite Hargs. simpl.
    by apply construct_rejects_gk_data.
Qed.

Lemma driver_passes_undeclared_gk_data_witness :
  Driver.main (fun _ => true) (fun _ => Ok tt) sample_arguments sample_settings
  = Raise (UnexpectedKeyword "__init__" "gk_data").
Proof.
  refine (proj2 (proj2 (proj2 (proj2
    (driver_passes_undeclared_gk_data (fun _ => true) (fun _ => Ok tt)
       sample_arguments sample_settings)) _ _))).
  reflexivity.
Defined.

(** ** The option mask *)

(** The mask of the function [utils.py] defines, for a categorical
    question: exactly the rows whose option is Passed, Yes or Good. *)
Lemma get_option_mask_dict question_df first rest variables props :
  question_df = first :: rest ->
  variables !! Utils.strip_suffix (Utils.variable first) = Some props ->
  Utils.var_type props = Some "dict" ->
  Utils.get_option_mask question_df variables
  = Ok (map (fun r =>
               bool_decide (Utils.option_label r = "Passed"
                            \/ Utils.option_label r = "Yes"
                            \/ Utils.option_label r = "Good"))
          question_df).
Proof.
  intros -> Hvar Htype. unfold Utils.get_option_mask.
  rewrite Hvar, Htype. simpl. f_equal.
  assert (Hrow : forall r,
    (String.eqb (Utils.option_label r) "Good"
     || (String.eqb (Utils.option_label r) "Yes"
         || String.eqb (Utils.option_label r) "Passed"))
    = bool_decide (Utils.option_label r = "Passed"
                   \/ Utils.option_label r = "Yes"
                   \/ Utils.option_label r = "Good")).
  { intros r. apply eq_true_iff_eq.
    rewrite !orb_true_iff, bool_decide_eq_true, !String.eqb_eq. tauto. }
  rewrite Hrow. f_equal. apply map_ext. intros r. apply Hrow.
Qed.

(** For any other declared type every row is selected. *)
Lemma get_option_mask_other question_df first rest variables props :
  question_df = first :: rest ->
  variables !! Utils.strip_suffix (Utils.variable first) = Some props ->
  Utils.var_type props <> Some "dict" ->
  Utils.get_option_mask question_df variables
  = Ok (map (fun _ => true) question_df).
Proof.
  intros -> Hvar Htype. unfold Utils.get_option_mask. rewrite Hvar.
  destruct (Utils.var_type props) as [t|]; [|done].
  destruct (String.eqb t "dict") eqn:Heq; [|done].
  apply String.eqb_eq in Heq. by subst.
Qed.

(** C5.  [make_plots] calls [get_option_mask] with the keyword
    [question_type], which the function of [utils.py] does not declare: the
    call with an explicit question type raises the unexpected-keyword error
    for every table and every question type, and yields no mask. *)
Theorem make_plots_option_mask_raises
    (question_df : list Utils.question_row)
    (variables : gmap string Utils.var_props)
    (question_type : option string) :
  DomainAnalyser.make_plots_option_mask question_df variables question_type
  = Raise (UnexpectedKeyword "get_option_mask" "question_type").
Proof. reflexivity. Qed.

(** ** Sheet names of the statistics export *)

Section SheetNameFacts.

Import DomainAnalyser.

Variable re_sub : string -> string -> string -> string.
Variable sheet_renames : option (list (string * (string * string))).

Lemma in_sheets_only_itself name sheets :
  only_itself sheets -> in_sheets name sheets = false.
Proof.
  unfold only_itself. induction 1 as [|it rest -> _ IH]; [done|].
  simpl. exact IH.
Qed.

(** So the membership test of line 187 never succeeds, and no name ever
    gets a counter. *)
Lemma sheet_names_never_numbered sheets cnt breakdowns :
  only_itself sheets ->
  sheet_names re_sub sheet_renames sheets cnt breakdowns
  = map (sheet_name_of re_sub sheet_renames [] 0) breakdowns.
Proof.
  revert sheets cnt.
  induction breakdowns as [|fb rest IH]; intros sheets cnt Hs; [done|].
  simpl. f_equal.
  - unfold sheet_name_of. by rewrite in_sheets_only_itself.
  - apply IH. apply Forall_app. split; [done|]. by constructor.
Qed.

End SheetNameFacts.

(** C6.  Two breakdown names of 40 characters that share their first 32:
    both sheets get the same 32-character name.  The second is not renamed
    to the first 30 characters followed by 01, because the list of used
    names receives itself instead of the name (line 190). *)
Theorem sheet_name_collision_is_kept
    (re_sub : string -> string -> string -> string) :
  let first := "aaaaaaaaaaaaaaaaaaaaaaaaaaaaaaaabbbbbbbb" in
  let second := "aaaaaaaaaaaaaaaaaaaaaaaaaaaaaaaacccccccc" in
  DomainAnalyser.write_statistics re_sub None [first; second]
  = ["aaaaaaaaaaaaaaaaaaaaaaaaaaaaaaaa"; "aaaaaaaaaaaaaaaaaaaaaaaaaaaaaaaa"]
  /\ nth 1 (DomainAnalyser.write_statistics re_sub None [first; second]) ""
     <> "aaaaaaaaaaaaaaaaaaaaaaaaaaaaaa" +:+ DomainAnalyser.format_02d 1.
Proof. split; [reflexivity|discriminate]. Qed.

(** ** Duplicate columns in the dataset export *)

Section WriteDataFacts.

Import DomainAnalyser.

Variable lower : string -> string.

Lemma counter_add_keys x c g :
  In g (map fst (counter_add x c)) <-> g = x \/ In g (map fst c).
Proof.
  induction c as [|[y n] rest IH]; simpl.
  - intuition congruence.
  - destruct (String.eqb x y) eqn:Hxy; simpl.
    + apply String.eqb_eq in Hxy. subst. intuition congruence.
    + rewrite IH. intuition congruence.
Qed.

Lemma counter_add_NoDup x c :
  List.NoDup (map fst c) -> List.NoDup (map fst (counter_add x c)).
Proof.
  induction c as [|[y n] rest IH]; simpl; intros Hnd.
  - constructor; [tauto|constructor].
  - apply List.NoDup_cons_iff in Hnd as [Hy Hnd].
    destruct (String.eqb x y) eqn:Hxy; simpl.
    + by constructor.
    + constructor; [|by apply IH].
      rewrite counter_add_keys. intros [->|Hin]; [|done].
      by rewrite String.eqb_refl in Hxy.
Qed.

Lemma counter_add_get x c g :
  counter_get g (counter_add x c)
  = (counter_get g c + if String.eqb g x then 1 else 0)%nat.
Proof.
  induction c as [|[y n] rest IH]; simpl.
  - done.
  - destruct (String.eqb x y) eqn:Hxy; simpl.
    + apply String.eqb_eq in Hxy. subst y.
      destruct (String.eqb g x); lia.
    + rewrite IH. destruct (String.eqb g y) eqn:Hgy; [|done].
      apply String.eqb_eq in Hgy. subst y.
      rewrite String.eqb_sym, Hxy. lia.
Qed.

Lemma counter_get_In g n c :
  List.NoDup (map fst c) -> In (g, n) c -> counter_get g c = n.
Proof.
  induction c as [|[y m] rest IH]; simpl; [done|].
  intros Hnd Hin. apply List.NoDup_cons_iff in Hnd as [Hy Hnd].
  destruct Hin as [[= -> ->]|Hin].
  - by rewrite String.eqb_refl.
  - destruct (String.eqb g y) eqn:Hgy; [|by apply IH].
    apply String.eqb_eq in Hgy. subst y. exfalso. apply Hy.
    change g with (fst (g, n)). by apply in_map.
Qed.

Lemma Counter_fold l c :
  List.NoDup (map fst c) ->
  let c' := fold_left (fun c x => counter_add x c) l c in
  List.NoDup (map fst c')
  /\ (forall g, In g (map fst c') <-> In g l \/ In g (map fst c))
  /\ (forall g, counter_get g c' = (counter_get g c + occurrences g l)%nat).
Proof.
  revert c. induction l as [|x rest IH]; intros c Hnd; simpl.
  - split; [done|]. split; [tauto|]. intros g. unfold occurrences. simpl. lia.
  - destruct (IH (counter_add x c) (counter_add_NoDup x c Hnd))
      as (Hnd' & Hkeys & Hget).
    split; [done|]. split.
    + intros g. rewrite Hkeys, counter_add_keys. intuition.
    + intros g. rewrite Hget, counter_add_get. unfold occurrences. simpl.
      destruct (String.eqb g x); simpl; lia.
Qed.

(** The counter of line 277 lists every lowercase name once, with its
    number of columns. *)
Lemma Counter_spec l :
  List.NoDup (map fst (Counter l))
  /\ (forall g, In g (map fst (Counter l)) <-> In g l)
  /\ (forall g n, In (g, n) (Counter l) -> n = occurrences g l).
Proof.
  destruct (Counter_fold l [] (List.NoDup_nil _)) as (Hnd & Hkeys & Hget).
  split; [done|]. split.
  - intros g. rewrite (Hkeys g). simpl. tauto.
  - intros g n Hin. rewrite <- (counter_get_In g n _ Hnd Hin).
    by rewrite Hget.
Qed.

Lemma find_filter_same {A : Type} (p q : A -> bool) (l : list A) :
  (forall x, In x l -> p x = true -> q x = true) ->
  List.find p (List.filter q l) = List.find p l.
Proof.
  induction l as [|x rest IH]; intros Hpq; [done|]. simpl.
  destruct (q x) eqn:Hq; simpl.
  - destruct (p x); [done|]. apply IH. intros y Hy. apply Hpq. by right.
  - destruct (p x) eqn:Hp.
    + rewrite (Hpq x) in Hq; [done|by left|done].
    + apply IH. intros y Hy. apply Hpq. by right.
Qed.

Lemma filter_filter_andb {A : Type} (f g : A -> bool) (l : list A) :
  List.filter f (List.filter g l) = List.filter (fun x => f x && g x) l.
Proof.
  induction l as [|x rest IH]; [done|]. simpl.
  destruct (g x); simpl; rewrite ?andb_false_r, ?andb_true_r.
  - destruct (f x); by rewrite IH.
  - exact IH.
Qed.

Lemma labels_filter (f : string -> bool) (t : Utils.table) :
  Utils.labels (List.filter (fun lc => f (fst lc)) t)
  = List.filter f (Utils.labels t).
Proof.
  unfold Utils.labels. induction t as [|[c d] rest IH]; [done|]. simpl.
  destruct (f c); simpl; by rewrite IH.
Qed.

Lemma existsb_eqb_In g l : existsb (String.eqb g) l = true <-> In g l.
Proof.
  rewrite existsb_exists. split.
  - intros (x & Hin & Heq). apply String.eqb_eq in Heq. by subst.
  - intros Hin. exists g. split; [done|apply String.eqb_refl].
Qed.

Lemma drop_duplicated_step t done g n :
  n = occurrences g (map lower (Utils.labels t)) ->
  ~ In g done ->
  drop_duplicated lower (List.filter (kept_after lower t done) t) (g, n)
  = List.filter (kept_after lower t (g :: done)) t.
Proof.
  intros Hn Hg. unfold drop_duplicated. simpl.
  assert (Hother : forall lc,
            lower (fst lc) <> g ->
            kept_after lower t (g :: done) lc = kept_after lower t done lc).
  { intros lc Hne. unfold kept_after. simpl.
    replace (String.eqb (lower (fst lc)) g) with false; [done|].
    symmetry. by apply String.eqb_neq. }
  assert (Hfind :
    List.find (fun col => String.eqb (lower col) g)
      (Utils.labels (List.filter (kept_after lower t done) t))
    = first_spelling lower t g).
  { unfold first_spelling, kept_after.
    rewrite (labels_filter (fun c =>
      negb (is_dropped lower t c && existsb (String.eqb (lower c)) done))).
    apply find_filter_same. intros c _ Hc. apply String.eqb_eq in Hc.
    replace (existsb (String.eqb (lower c)) done) with false.
    - by rewrite andb_false_r.
    - symmetry. apply not_true_is_false. rewrite existsb_eqb_In.
      by rewrite Hc. }
  destruct (1 <? n)%nat eqn:Hmult.
  - rewrite Hfind. destruct (first_spelling lower t g) as [c|] eqn:Hfirst.
    + (* the first spelling [c] of [g] goes *)
      pose proof Hfirst as Hc. unfold first_spelling in Hc.
      apply find_some in Hc as [_ Hc]. apply String.eqb_eq in Hc.
      unfold drop. rewrite filter_filter_andb.
      apply filter_ext. intros lc.
      destruct (String.eqb (lower (fst lc)) g) eqn:Hlc.
      * apply String.eqb_eq in Hlc.
        unfold kept_after, is_dropped. simpl.
        rewrite Hlc, String.eqb_refl, <- Hn, Hmult, Hfirst. simpl.
        replace (existsb (String.eqb g) done) with false.
        2:{ symmetry. apply not_true_is_false. by rewrite existsb_eqb_In. }
        by destruct (String.eqb (fst lc) c).
      * apply String.eqb_neq in Hlc. rewrite (Hother lc Hlc).
        replace (String.eqb (fst lc) c) with false; [done|].
        symmetry. apply String.eqb_neq. intros Heq. apply Hlc.
        by rewrite Heq.
    + (* no column has this lowercase name *)
      apply filter_ext_in. intros lc Hin. symmetry. apply Hother.
      intros Hlc. unfold first_spelling in Hfirst.
      assert (Hno : String.eqb (lower (fst lc)) g = false).
      { apply (find_none _ _ Hfirst (fst lc)).
        unfold Utils.labels. by apply in_map. }
      apply String.eqb_neq in Hno. by apply Hno.
  - (* a lowercase name that occurs once *)
    apply filter_ext. intros lc.
    destruct (String.eqb (lower (fst lc)) g) eqn:Hlc.
    + apply String.eqb_eq in Hlc. unfold kept_after, is_dropped.
      by rewrite Hlc, <- Hn, Hmult.
    + apply String.eqb_neq in Hlc. symmetry. by apply Hother.
Qed.

Lemma fold_drop_duplicated t items done :
  List.NoDup (map fst items) ->
  (forall g n, In (g, n) items ->
     n = occurrences g (map lower (Utils.labels t)) /\ ~ In g done) ->
  fold_left (drop_duplicated lower) items (List.filter (kept_after lower t done) t)
  = List.filter (kept_after lower t (rev (map fst items) ++ done)) t.
Proof.
  revert done. induction items as [|[g n] rest IH]; intros done Hnd Hitems.
  - done.
  - simpl in Hnd. apply List.NoDup_cons_iff in Hnd as [Hg Hnd].
    destruct (Hitems g n (or_introl eq_refl)) as [Hn Hdone].
    simpl. rewrite (drop_duplicated_step t done g n Hn Hdone).
    rewrite IH; [by rewrite <- app_assoc|done|].
    intros g' n' Hin. destruct (Hitems g' n' (or_intror Hin)) as [Hn' Hd'].
    split; [done|]. intros [<-|Hin']; [|done].
    apply Hg. change g with (fst (g, n')). by apply in_map.
Qed.

(** What [write_data] hands to [to_sql]: the table without the columns
    that carry the first spelling of a lowercase name occurring more than
    once. *)
Lemma write_data_filter t :
  write_data lower t
  = List.filter (fun lc => negb (is_dropped lower t (fst lc))) t.
Proof.
  unfold write_data.
  destruct (Counter_spec (map lower (Utils.labels t)))
    as (Hnd & Hkeys & Hcount).
  assert (Hstart : t = List.filter (kept_after lower t []) t).
  { symmetry. apply forallb_filter_id. apply forallb_forall.
    intros lc _. unfold kept_after. simpl. by rewrite andb_false_r. }
  rewrite Hstart at 2. rewrite fold_drop_duplicated; [|done|].
  - apply filter_ext_in. intros lc Hin. unfold kept_after.
    replace (existsb _ _) with true; [by rewrite andb_true_r|].
    symmetry. rewrite existsb_eqb_In, app_nil_r, <- in_rev, Hkeys.
    apply in_map. unfold Utils.labels. by apply in_map.
  - intros g n Hin. split; [by apply Hcount|]. by intros [].
Qed.

End WriteDataFacts.

Section WriteDataPairs.

Import DomainAnalyser.

Variable lower : string -> string.

Lemma find_split {A : Type} (p : A -> bool) (l : list A) (x : A) :
  List.find p l = Some x ->
  exists l1 l2,
    l = l1 ++ x :: l2 /\ p x = true /\ forall y, In y l1 -> p y = false.
Proof.
  induction l as [|y rest IH]; [done|]. simpl.
  destruct (p y) eqn:Hy.
  - intros [= <-]. exists [], rest. by repeat split.
  - intros Hfind. destruct (IH Hfind) as (l1 & l2 & -> & Hx & Hl1).
    exists (y :: l1), l2. split; [done|]. split; [done|].
    intros z [<-|Hz]; [done|by apply Hl1].
Qed.

Lemma find_app_first {A : Type} (p : A -> bool) (l1 l2 : list A) (x : A) :
  (forall y, In y l1 -> p y = false) -> p x = true ->
  List.find p (l1 ++ x :: l2) = Some x.
Proof.
  intros Hl1 Hx. induction l1 as [|y rest IH]; simpl.
  - by rewrite Hx.
  - rewrite (Hl1 y) by (by left). apply IH. intros z Hz. apply Hl1. by right.
Qed.

Lemma occurrences_app g l1 l2 :
  occurrences g (l1 ++ l2) = (occurrences g l1 + occurrences g l2)%nat.
Proof. unfold occurrences. by rewrite List.filter_app, length_app. Qed.

Lemma occurrences_cons g x l :
  occurrences g (x :: l)
  = ((if String.eqb g x then 1 else 0) + occurrences g l)%nat.
Proof. unfold occurrences. simpl. by destruct (String.eqb g x). Qed.

Lemma occurrences_pos g l : In g l -> (1 <= occurrences g l)%nat.
Proof.
  induction l as [|x rest IH]; [done|]. rewrite occurrences_cons.
  intros [->|Hin]; [rewrite String.eqb_refl; lia|].
  specialize (IH Hin). lia.
Qed.

Lemma occurrences_zero g l : occurrences g l = 0%nat -> ~ In g l.
Proof. intros Hzero Hin. pose proof (occurrences_pos g l Hin). lia. Qed.

(** In a table where a name, ignoring case, is carried by two columns at
    most, the first of two such columns is the first spelling of their
    common name. *)
Lemma first_spelling_of_pair t l1 a l2 b l3 :
  (forall g, (occurrences g (map lower (Utils.labels t)) <= 2)%nat) ->
  Utils.labels t = l1 ++ a :: l2 ++ b :: l3 ->
  lower a = lower b ->
  first_spelling lower t (lower a) = Some a
  /\ (1 < occurrences (lower a) (map lower (Utils.labels t)))%nat.
Proof.
  intros Htwo Hlabels Hab. specialize (Htwo (lower a)).
  rewrite Hlabels in Htwo.
  rewrite map_app, occurrences_app in Htwo. simpl in Htwo.
  rewrite occurrences_cons, String.eqb_refl in Htwo.
  rewrite map_app, occurrences_app in Htwo. simpl in Htwo.
  rewrite occurrences_cons, Hab, String.eqb_refl in Htwo.
  split.
  - unfold first_spelling. rewrite Hlabels. apply find_app_first.
    + intros y Hy. apply String.eqb_neq. intros Heq.
      assert (Hin : In (lower b) (map lower l1))
        by (rewrite <- Hab, <- Heq; by apply in_map).
      pose proof (occurrences_pos _ _ Hin). lia.
    + apply String.eqb_refl.
  - rewrite Hlabels, map_app, occurrences_app. simpl.
    rewrite occurrences_cons, String.eqb_refl.
    rewrite map_app, occurrences_app. simpl.
    rewrite occurrences_cons, Hab, String.eqb_refl. lia.
Qed.

End WriteDataPairs.

(** C7 (as amended).  For every table with distinct column names in which
    no name, ignoring case, is carried by more than two columns, and for
    every lower-casing function: the columns that are written are columns
    of the table, whole and in their order; of two columns whose names are
    equal ignoring case the first is dropped and the second is written;
    and a column whose name equals no other column's name ignoring case is
    written. *)
Theorem write_data_drops_first_spelling
    (lower : string -> string) (t : Utils.table) :
  List.NoDup (Utils.labels t) ->
  (forall g,
     (DomainAnalyser.occurrences g (map lower (Utils.labels t)) <= 2)%nat) ->
  let after := DomainAnalyser.write_data lower t in
  (exists keep, after = List.filter (fun lc => keep (fst lc)) t)
  /\ (forall l1 a l2 b l3,
        Utils.labels t = l1 ++ a :: l2 ++ b :: l3 ->
        lower a = lower b ->
        ~ In a (Utils.labels after) /\ In b (Utils.labels after))
  /\ (forall col,
        In col (Utils.labels t) ->
        (forall other,
           In other (Utils.labels t) -> lower other = lower col ->
           other = col) ->
        In col (Utils.labels after)).
Proof.
  intros Hnd Htwo after.
  assert (Hafter : Utils.labels after
            = List.filter (fun c => negb (DomainAnalyser.is_dropped lower t c))
                (Utils.labels t)).
  { subst after. rewrite write_data_filter.
    apply (labels_filter (fun c => negb (DomainAnalyser.is_dropped lower t c))). }
  split; [|split].
  - exists (fun c => negb (DomainAnalyser.is_dropped lower t c)).
    apply write_data_filter.
  - intros l1 a l2 b l3 Hlabels Hab.
    destruct (first_spelling_of_pair lower t l1 a l2 b l3 Htwo Hlabels Hab)
      as [Hfirst Hmany].
    assert (Hne : a <> b).
    { intros <-. rewrite Hlabels in Hnd.
      apply List.NoDup_remove_2 in Hnd. apply Hnd.
      apply in_or_app. right. apply in_or_app. right. by left. }
    rewrite Hafter, !filter_In. split.
    + intros [_ Hkept]. apply negb_true_iff in Hkept.
      unfold DomainAnalyser.is_dropped in Hkept.
      rewrite Hfirst, String.eqb_refl, andb_true_r in Hkept.
      apply Nat.ltb_ge in Hkept. lia.
    + split.
      * rewrite Hlabels. apply in_or_app. right. right.
        apply in_or_app. right. by left.
      * apply negb_true_iff. unfold DomainAnalyser.is_dropped.
        rewrite <- Hab, Hfirst.
        replace (String.eqb b a) with false; [by rewrite andb_false_r|].
        symmetry. apply String.eqb_neq. congruence.
  - intros col Hin Halone. rewrite Hafter, filter_In. split; [done|].
    apply negb_true_iff. unfold DomainAnalyser.is_dropped.
    replace (1 <? _)%nat with false; [done|]. symmetry. apply Nat.ltb_ge.
    (* the name of [col] occurs once *)
    apply in_split in Hin as (l1 & l2 & Hlabels). rewrite Hlabels in *.
    assert (Hout : forall other, In other (l1 ++ l2) -> lower other <> lower col).
    { intros other Hother Heq.
      assert (other = col).
      { apply Halone; [|done]. apply in_app_or in Hother as [H|H];
          apply in_or_app; [by left|right; by right]. }
      subst other. apply List.NoDup_remove_2 in Hnd. by apply Hnd. }
    rewrite map_app, occurrences_app. simpl.
    rewrite occurrences_cons, String.eqb_refl.
    assert (Hzero : forall l, (forall other, In other l -> lower other <> lower col) ->
              DomainAnalyser.occurrences (lower col) (map lower l) = 0%nat).
    { intros l Hl. unfold DomainAnalyser.occurrences.
      induction l as [|x rest IH]; [done|]. simpl.
      replace (String.eqb (lower col) (lower x)) with false.
      - apply IH. intros o Ho. apply Hl. by right.
      - symmetry. apply String.eqb_neq. intros Heq. apply (Hl x); [by left|done]. }
    rewrite !Hzero; [lia| |]; intros other Ho; apply Hout, in_or_app; auto.
Qed.

Lemma write_data_drops_first_spelling_witness :
  ~ In "Name"
      (Utils.labels
         (DomainAnalyser.write_data str_lower
            [("Name", [Py.VStr "a"]); ("score", [Py.VNum (Py.NInt 80)]);
             ("name", [Py.VStr "b"])]))
  /\ In "name"
       (Utils.labels
          (DomainAnalyser.write_data str_lower
             [("Name", [Py.VStr "a"]); ("score", [Py.VNum (Py.NInt 80)]);
              ("name", [Py.VStr "b"])])).
Proof.
  refine (proj1 (proj2 (write_data_drops_first_spelling str_lower
            [("Name", [Py.VStr "a"]); ("score", [Py.VNum (Py.NInt 80)]);
             ("name", [Py.VStr "b"])] _ _))
            [] "Name" ["score"] "name" [] eq_refl eq_refl).
  - repeat constructor; simpl; intuition discriminate.
  - intros g.
    change (map str_lower
              (Utils.labels
                 [("Name", [Py.VStr "a"]); ("score", [Py.VNum (Py.NInt 80)]);
                  ("name", [Py.VStr "b"])]))
      with ["name"; "score"; "name"].
    unfold DomainAnalyser.occurrences. simpl.
    destruct (String.eqb g "name") eqn:Hname;
      destruct (String.eqb g "score") eqn:Hscore; simpl; try lia.
    apply String.eqb_eq in Hname, Hscore. congruence.
Defined.

(** The first occurrence is not the one that survives: of two columns
    [Name] and [name] the first is dropped and the second is written. *)
Lemma write_data_keeps_later_spellings :
  Utils.labels
    (DomainAnalyser.write_data str_lower
       [("Name", [Py.VStr "a"]); ("name", [Py.VStr "b"])])
  = ["name"].
Proof. reflexivity. Qed.

(** ** Value translation of a variable *)

(** C4 (as amended).  When some source key of a variable's translation
    occurs among the column's values, the translation is applied with
    [Series.map]: every cell whose value is a key of the translation is
    replaced by the mapped target, and every cell whose value is no key of
    the translation is replaced by NaN. *)
Theorem translate_variable_maps_uncovered_to_nan
    (trans : Py.dict Py.value) (column : list Py.value) :
  Py.intersects (Py.keys trans) (Py.unique column) = true ->
  length (DomainAnalyser.translate_variable (Some trans) column)
  = length column
  /\ (forall i c target,
        nth_error column i = Some c ->
        DomainAnalyser.pd_get c trans = Some target ->
        nth_error (DomainAnalyser.translate_variable (Some trans) column) i
        = Some target)
  /\ (forall i c,
        nth_error column i = Some c ->
        DomainAnalyser.pd_get c trans = None ->
        nth_error (DomainAnalyser.translate_variable (Some trans) column) i
        = Some (Py.VNum Py.NNaN)).
Proof.
  intros Hkeys. unfold DomainAnalyser.translate_variable. rewrite Hkeys.
  unfold DomainAnalyser.series_map. split; [apply length_map|].
  split.
  - intros i c target Hc Hget. rewrite nth_error_map, Hc. simpl.
    by rewrite Hget.
  - intros i c Hc Hget. rewrite nth_error_map, Hc. simpl. by rewrite Hget.
Qed.

Lemma translate_variable_maps_uncovered_to_nan_witness :
  nth_error
    (DomainAnalyser.translate_variable
       (Some [(Py.VStr "A", Py.VNum (Py.NInt 1))])
       [Py.VStr "A"; Py.VStr "B"; Py.VStr "A"]) 1
  = Some (Py.VNum Py.NNaN).
Proof.
  refine (proj2 (proj2
    (translate_variable_maps_uncovered_to_nan
       [(Py.VStr "A", Py.VNum (Py.NInt 1))]
       [Py.VStr "A"; Py.VStr "B"; Py.VStr "A"] _)) 1%nat (Py.VStr "B") _ _);
  reflexivity.
Defined.

(** The specification's example: with the translation [{A: 1}] on a
    column holding [A] and [B], the cell [B] does not stay [B]. *)
Lemma translate_variable_uncovered_not_kept :
  DomainAnalyser.translate_variable
    (Some [(Py.VStr "A", Py.VNum (Py.NInt 1))]) [Py.VStr "A"; Py.VStr "B"]
  = [Py.VNum (Py.NInt 1); Py.VNum Py.NNaN].
Proof. reflexivity. Qed.

(** ** The boolean-fill helper *)

Section FillBooleansFacts.

Import Py Utils.

Variable pick : list value -> value.
Hypothesis pick_In : forall l, l <> [] -> In (pick l) l.

Variable variables : gmap string var_props.

Abbreviation translate_column := (translate_column pick).
Abbreviation fill_column := (fill_column pick variables).
Abbreviation fill_columns := (fill_columns pick variables).
Abbreviation mark_missing := (mark_missing pick).

Lemma replace_where_map key val column :
  replace_where key val column
  = map (fun c => if elem_eq c key then VNum (float_of val) else c) column.
Proof.
  unfold replace_where.
  destruct (existsb (fun c => elem_eq c key) column) eqn:Hany; [done|].
  rewrite <- (map_id column) at 1. apply map_ext_in. intros c Hin.
  replace (elem_eq c key) with false; [done|].
  symmetry. apply not_true_is_false. intros Hc.
  assert (Hex : existsb (fun c => elem_eq c key) column = true)
    by (apply existsb_exists; eauto).
  by rewrite Hex in Hany.
Qed.

Lemma apply_entry_map trans_prop column :
  apply_entry trans_prop column = map (apply_cell trans_prop) column.
Proof.
  unfold apply_entry, apply_cell. revert column.
  induction trans_prop as [|[k v] rest IH]; intros column; simpl.
  - by rewrite map_id.
  - rewrite IH, replace_where_map, map_map. done.
Qed.

Lemma elem_eq_number_non_numeric x k :
  non_numeric k = true -> elem_eq (VNum x) k = false.
Proof.
  unfold elem_eq. destruct k as [s|[n|q|]|]; try done; intros _;
    by rewrite ?andb_false_r; destruct x.
Qed.

Lemma elem_eq_str s k : elem_eq (VStr s) k = py_eq (VStr s) k.
Proof. unfold elem_eq. by destruct k as [t|[n|q|]|]. Qed.

Lemma elem_eq_missing c k : is_missing c = true -> elem_eq c k = false.
Proof. unfold elem_eq. by intros ->. Qed.

(** Numbers already in a column are left alone by string keys. *)
Lemma apply_cell_number trans_prop x :
  forallb non_numeric (keys trans_prop) = true ->
  apply_cell trans_prop (VNum x) = VNum x.
Proof.
  unfold apply_cell. induction trans_prop as [|[k v] rest IH]; [done|].
  simpl. intros Hkeys. apply andb_true_iff in Hkeys as [Hk Hrest].
  rewrite (elem_eq_number_non_numeric x k Hk). by apply IH.
Qed.

Lemma apply_cell_missing trans_prop c :
  is_missing c = true -> apply_cell trans_prop c = c.
Proof.
  unfold apply_cell. intros Hc.
  induction trans_prop as [|[k v] rest IH]; [done|].
  simpl. by rewrite (elem_eq_missing c k Hc).
Qed.

(** A string cell gets the float of the target its value is bound to, and
    stays as it is when the entry has no such key. *)
Lemma apply_cell_str trans_prop s :
  forallb non_numeric (keys trans_prop) = true ->
  apply_cell trans_prop (VStr s)
  = match dict_get (VStr s) trans_prop with
    | Some target => VNum (float_of target)
    | None => VStr s
    end.
Proof.
  induction trans_prop as [|[k v] rest IH]; [done|].
  intros Hkeys. simpl in Hkeys.
  apply andb_true_iff in Hkeys as [Hk Hrest].
  change (apply_cell ((k, v) :: rest) (VStr s))
    with (apply_cell rest
            (if elem_eq (VStr s) k then VNum (float_of v) else VStr s)).
  change (dict_get (VStr s) ((k, v) :: rest))
    with (if py_eq (VStr s) k then Some v else dict_get (VStr s) rest).
  rewrite elem_eq_str. destruct (py_eq (VStr s) k).
  - by apply apply_cell_number.
  - by apply IH.
Qed.

(** *** The insertion of an uncovered value *)

Lemma dict_set_fresh {V : Type} (d : dict V) k (v : V) :
  mem k (keys d) = false -> dict_set d k v = d ++ [(k, v)].
Proof.
  induction d as [|[k' v'] rest IH]; [done|]. simpl.
  intros Hmem. apply orb_false_iff in Hmem as [Hk Hrest].
  rewrite Hk. by rewrite IH.
Qed.

Lemma difference_In u vals ks :
  In u (difference vals ks) <-> In u vals /\ mem u ks = false.
Proof.
  unfold difference. rewrite filter_In. by rewrite negb_true_iff.
Qed.

(** The entry after line 62: unchanged when every observed value is a
    key, otherwise one observed value that is no key is appended with
    target NaN. *)
Lemma mark_missing_spec unique_values trans_prop :
  let nan_val := difference unique_values (keys trans_prop) in
  (nan_val = [] /\ mark_missing unique_values trans_prop = trans_prop)
  \/ (nan_val <> []
      /\ In (pick nan_val) unique_values
      /\ mem (pick nan_val) (keys trans_prop) = false
      /\ mark_missing unique_values trans_prop
         = trans_prop ++ [(pick nan_val, NNaN)]).
Proof.
  intros nan_val. unfold Utils.mark_missing. fold nan_val.
  destruct nan_val as [|u rest] eqn:Hnan; [by left|]. right.
  assert (Hne : u :: rest <> []) by done.
  pose proof (pick_In (u :: rest) Hne) as Hin.
  rewrite <- Hnan in Hin. subst nan_val.
  apply difference_In in Hin as [Hobs Hfresh]. rewrite Hnan in *.
  split; [done|]. split; [done|]. split; [done|].
  by apply dict_set_fresh.
Qed.

Lemma mark_missing_incl unique_values trans_prop :
  incl trans_prop (mark_missing unique_values trans_prop).
Proof.
  destruct (mark_missing_spec unique_values trans_prop)
    as [[_ ->]|(_ & _ & _ & ->)].
  - apply incl_refl.
  - by apply incl_appl, incl_refl.
Qed.

Lemma mark_missing_non_numeric unique_values trans_prop :
  forallb non_numeric unique_values = true ->
  forallb non_numeric (keys trans_prop) = true ->
  forallb non_numeric (keys (mark_missing unique_values trans_prop)) = true.
Proof.
  intros Hvals Hkeys.
  destruct (mark_missing_spec unique_values trans_prop)
    as [[_ ->]|(_ & Hin & _ & ->)]; [done|].
  unfold keys. rewrite map_app, forallb_app. fold (keys trans_prop).
  rewrite Hkeys. simpl. rewrite andb_true_r.
  rewrite forallb_forall in Hvals. by apply Hvals.
Qed.

(** *** The loop over the entries *)

Lemma translate_column_cons unique_values column trans_key trans_prop rest :
  translate_column unique_values column ((trans_key, trans_prop) :: rest)
  = if intersects (keys trans_prop) unique_values then
      let trans_prop' := mark_missing unique_values trans_prop in
      let r := translate_column unique_values
                 (apply_entry trans_prop' column) rest in
      (fst r, (trans_key, trans_prop') :: snd r)
    else
      let r := translate_column unique_values column rest in
      (fst r, (trans_key, trans_prop) :: snd r).
Proof.
  simpl. destruct (intersects _ _); simpl;
    by destruct (Utils.translate_column _ _ _ _).
Qed.

(** Entries whose keys meet no observed value leave column and entries
    as they are. *)
Lemma translate_column_skip unique_values column before rest :
  Forall (fun e => intersects (keys (snd e)) unique_values = false) before ->
  translate_column unique_values column (before ++ rest)
  = (fst (translate_column unique_values column rest),
     before ++ snd (translate_column unique_values column rest)).
Proof.
  induction 1 as [|[name prop] before Hskip _ IH]; simpl app.
  - by destruct (translate_column _ _ _).
  - rewrite translate_column_cons. simpl in Hskip. rewrite Hskip. simpl.
    by rewrite IH.
Qed.

(** The entries after a column: same names, in the same order, each
    entry either as before or with its inserted key. *)
Lemma translate_column_entries unique_values column trs :
  snd (translate_column unique_values column trs)
  = map (fun e =>
           (fst e,
            if intersects (keys (snd e)) unique_values
            then mark_missing unique_values (snd e) else snd e)) trs.
Proof.
  revert column. induction trs as [|[name prop] rest IH]; intros column.
  - done.
  - rewrite translate_column_cons.
    destruct (intersects (keys prop) unique_values) eqn:Hmeet; simpl;
      rewrite Hmeet; by rewrite IH.
Qed.

Lemma translate_column_length unique_values column trs :
  length (fst (translate_column unique_values column trs)) = length column.
Proof.
  revert column. induction trs as [|[name prop] rest IH]; intros column.
  - done.
  - rewrite translate_column_cons.
    destruct (intersects (keys prop) unique_values); simpl; rewrite IH.
    + by rewrite apply_entry_map, length_map.
    + done.
Qed.

(** With string keys and string observed values, a cell that holds a
    number keeps it through the whole loop. *)
Lemma translate_column_number unique_values column trs i x :
  forallb non_numeric unique_values = true ->
  Forall (fun e => forallb non_numeric (keys (snd e)) = true) trs ->
  nth_error column i = Some (VNum x) ->
  nth_error (fst (translate_column unique_values column trs)) i
  = Some (VNum x).
Proof.
  intros Hvals Htrs. revert column.
  induction Htrs as [|[name prop] rest Hprop _ IH]; intros column Hi.
  - done.
  - rewrite translate_column_cons.
    destruct (intersects (keys prop) unique_values); simpl; apply IH.
    + rewrite apply_entry_map, nth_error_map, Hi. simpl. f_equal.
      apply apply_cell_number. by apply mark_missing_non_numeric.
    + done.
Qed.


Lemma unique_from_In seen l x : In x (unique_from seen l) -> In x l.
Proof.
  revert seen. induction l as [|y rest IH]; intros seen; [done|]. simpl.
  destruct (existsb (pd_eq y) seen).
  - intros Hin. right. by apply (IH seen).
  - intros [->|Hin]; [by left|]. right. by apply (IH (y :: seen)).
Qed.

Lemma unique_non_numeric column :
  forallb non_numeric column = true ->
  forallb non_numeric (unique column) = true.
Proof.
  rewrite !forallb_forall. intros Hcol x Hin.
  apply Hcol. by apply (unique_from_In [] column).
Qed.

Lemma dict_get_app {V : Type} k (d d' : dict V) :
  dict_get k (d ++ d')
  = match dict_get k d with
    | Some v => Some v
    | None => dict_get k d'
    end.
Proof.
  induction d as [|[k' v'] rest IH]; [done|]. simpl.
  by destruct (py_eq k k').
Qed.

Lemma dict_get_fresh {V : Type} k (d : dict V) :
  mem k (keys d) = false -> dict_get k d = None.
Proof.
  induction d as [|[k' v'] rest IH]; [done|]. simpl.
  intros Hmem. apply orb_false_iff in Hmem as [-> Hrest]. by apply IH.
Qed.

Lemma is_str_non_numeric l :
  forallb is_str l = true -> forallb non_numeric l = true.
Proof.
  rewrite !forallb_forall. intros Hl x Hx. specialize (Hl x Hx).
  by destruct x.
Qed.

Lemma pd_eq_str s y : pd_eq (VStr s) y = true -> y = VStr s.
Proof.
  destruct y as [t|x|]; try done. simpl. intros Heq.
  apply String.eqb_eq in Heq. by subst.
Qed.

Lemma pd_eq_str_r s y : pd_eq y (VStr s) = true -> y = VStr s.
Proof.
  destruct y as [t|[n|q|]|]; try done. simpl. intros Heq.
  apply String.eqb_eq in Heq. by subst.
Qed.

(** A string of a column is among its distinct values. *)
Lemma unique_from_str seen l s :
  In (VStr s) l -> In (VStr s) (unique_from seen l) \/ In (VStr s) seen.
Proof.
  revert seen. induction l as [|y rest IH]; intros seen; [done|]. simpl.
  destruct (existsb (pd_eq y) seen) eqn:Hseen.
  - intros [->|Hin]; [|by apply IH].
    right. apply existsb_exists in Hseen as (z & Hz & Heq).
    apply pd_eq_str in Heq. by subst.
  - intros [->|Hin]; [left; by left|].
    destruct (IH (y :: seen) Hin) as [H|[->|H]].
    + left. by right.
    + left. by left.
    + by right.
Qed.

Lemma unique_str column s : In (VStr s) column -> In (VStr s) (unique column).
Proof.
  intros Hin. by destruct (unique_from_str [] column s Hin) as [H|[]].
Qed.

Lemma dict_get_None_mem {V : Type} k (d : dict V) :
  dict_get k d = None -> mem k (keys d) = false.
Proof.
  induction d as [|[k' v'] rest IH]; [done|]. simpl.
  destruct (py_eq k k'); [done|]. exact IH.
Qed.



(** *** The translations across columns *)

Lemma grows_refl trs : grows trs trs.
Proof.
  unfold grows. induction trs as [|e rest IH]; constructor; [|done].
  split; [done|apply incl_refl].
Qed.

Lemma grows_trans trs1 trs2 trs3 :
  grows trs1 trs2 -> grows trs2 trs3 -> grows trs1 trs3.
Proof.
  unfold grows. intros H12. revert trs3.
  induction H12 as [|e1 e2 r1 r2 [Hn12 Hi12] _ IH]; intros trs3 H23.
  - by inversion H23.
  - inversion H23 as [|? e3 ? r3 [Hn23 Hi23] Hr23]; subst.
    constructor; [|by apply IH]. split; [congruence|].
    by apply (incl_tran Hi12).
Qed.

Lemma grows_nth_error trs trs' j name prop :
  grows trs trs' ->
  nth_error trs j = Some (name, prop) ->
  exists prop', nth_error trs' j = Some (name, prop') /\ incl prop prop'.
Proof.
  unfold grows. intros Hgrows. revert j.
  induction Hgrows as [|e e' r r' [Hn Hi] _ IH]; intros j Hj.
  - by destruct j.
  - destruct j as [|j]; simpl in *.
    + injection Hj as ->. destruct e' as [name' prop']. simpl in *.
      subst name'. by exists prop'.
    + by apply IH.
Qed.

Lemma translate_column_grows unique_values column trs :
  grows trs (snd (translate_column unique_values column trs)).
Proof.
  rewrite translate_column_entries. unfold grows.
  induction trs as [|[name prop] rest IH]; simpl; constructor; [|done].
  split; [done|]. simpl. destruct (intersects _ _).
  - apply mark_missing_incl.
  - apply incl_refl.
Qed.

Lemma fill_column_grows col column trs :
  grows trs (snd (fill_column col column trs)).
Proof.
  unfold Utils.fill_column. destruct (convert_to_bool variables col).
  - destruct (length (unique column) <=? 3)%nat.
    + apply translate_column_grows.
    + apply grows_refl.
  - apply grows_refl.
Qed.

Lemma fill_columns_cons col column rest trs :
  fill_columns ((col, column) :: rest) trs
  = let r := fill_column col column trs in
    let r' := fill_columns rest (snd r) in
    ((col, fst r) :: fst r', snd r').
Proof.
  simpl. destruct (Utils.fill_column _ _ _ _ _) as [column' trs'].
  simpl. by destruct (Utils.fill_columns _ _ _ _).
Qed.

(** Each column finds the translations as the columns before it left
    them. *)
Lemma fill_columns_app t1 t2 trs :
  snd (fill_columns (t1 ++ t2) trs)
  = snd (fill_columns t2 (snd (fill_columns t1 trs))).
Proof.
  revert trs. induction t1 as [|[col column] rest IH]; intros trs.
  - done.
  - simpl app. rewrite !fill_columns_cons. simpl. apply IH.
Qed.

Lemma fill_columns_grows t trs : grows trs (snd (fill_columns t trs)).
Proof.
  revert trs. induction t as [|[col column] rest IH]; intros trs.
  - apply grows_refl.
  - rewrite fill_columns_cons. simpl.
    eapply grows_trans; [apply fill_column_grows|apply IH].
Qed.

Lemma label_count_NoDup col t :
  List.NoDup (labels t) -> (label_count col t <= 1)%nat.
Proof.
  unfold label_count. induction (labels t) as [|c rest IH]; simpl; [lia|].
  intros Hnd. apply List.NoDup_cons_iff in Hnd as [Hc Hnd].
  destruct (String.eqb col c) eqn:Heq; [|by apply IH].
  apply String.eqb_eq in Heq. subst c. simpl.
  assert (Hnone : List.filter (String.eqb col) rest = []).
  { clear -Hc. induction rest as [|c rest IH]; [done|]. simpl.
    destruct (String.eqb col c) eqn:Heq.
    - apply String.eqb_eq in Heq. subst c. exfalso. apply Hc. by left.
    - apply IH. intros Hin. apply Hc. by right. }
  by rewrite Hnone.
Qed.

(** With distinct column labels the helper returns. *)
Lemma fill_booleans_returns t trs :
  List.NoDup (labels t) ->
  fill_booleans pick variables t trs = Ok (fill_columns t trs).
Proof.
  intros Hnd. unfold fill_booleans.
  replace (existsb _ (labels t)) with false; [done|].
  symmetry. apply not_true_is_false. rewrite existsb_exists.
  intros (col & _ & Hcol). apply andb_true_iff in Hcol as [_ Hcount].
  apply Nat.ltb_lt in Hcount.
  pose proof (label_count_NoDup col t Hnd). lia.
Qed.


End FillBooleansFacts.

Lemma pick_first_In (l : list Py.value) : l <> [] -> In (Utils.pick_first l) l.
Proof. destruct l; [done|]. intros _. by left. Qed.

Lemma pick_last_In (l : list Py.value) : l <> [] -> In (Utils.pick_last l) l.
Proof.
  unfold Utils.pick_last. induction l as [|x [|y rest] IH]; [done| |].
  - intros _. by left.
  - intros _. right. by apply IH.
Qed.



(** The same for every order of the set. *)
Lemma fill_column_one_uncovered_value_stays
    (pick : list Py.value -> Py.value) :
  (forall l, l <> [] -> In (pick l) l) ->
  let result :=
    fst (Utils.fill_column pick ∅ "antwoord"
           [Py.VStr "Ja"; Py.VStr "Nee"; Py.VStr "Onbekend"]
           [("bool", [(Py.VStr "Ja", Py.NInt 1)])]) in
  In (Py.VStr "Nee") result \/ In (Py.VStr "Onbekend") result.
Proof.
  intros Hpick result.
  assert (Hresult : result
            = Utils.apply_entry
                (Py.dict_set [(Py.VStr "Ja", Py.NInt 1)]
                   (pick [Py.VStr "Nee"; Py.VStr "Onbekend"]) Py.NNaN)
                [Py.VStr "Ja"; Py.VStr "Nee"; Py.VStr "Onbekend"])
    by reflexivity.
  rewrite Hresult.
  destruct (Hpick [Py.VStr "Nee"; Py.VStr "Onbekend"]) as [H|[H|[]]];
    [done| |]; rewrite <- H; vm_compute; tauto.
Qed.

(** Only the first entry that meets the column is applied to its values:
    a later entry that meets it too finds them already replaced. *)
Lemma fill_column_later_entry_not_applied :
  fst (Utils.fill_column Utils.pick_first ∅ "antwoord"
         [Py.VStr "Ja"; Py.VStr "Nee"]
         [("first", [(Py.VStr "Ja", Py.NInt 1)]);
          ("second", [(Py.VStr "Nee", Py.NInt 0); (Py.VStr "Ja", Py.NInt 7)])])
  = [Py.VNum (Py.NFloat 1); Py.VNum Py.NNaN].
Proof. reflexivity. Qed.

(** A number among the observed values can be taken for a replaced cell:
    the uncovered 1 is inserted with NaN and then matches the 1.0 that
    replaced [Ja]. *)
Lemma fill_column_number_matches_replaced_cell :
  fst (Utils.fill_column Utils.pick_first ∅ "antwoord"
         [Py.VStr "Ja"; Py.VStr "Nee"; Py.VNum (Py.NInt 1)] ja_nee)
  = [Py.VNum Py.NNaN; Py.VNum (Py.NFloat 0); Py.VNum Py.NNaN].
Proof. reflexivity. Qed.



(** The insertion is visible in a later column: alone, column [b] meets
    no key and is left as it is; after column [a] it meets the inserted key
    and is converted. *)
Lemma fill_booleans_later_column_sees_insertion :
  Utils.fill_booleans Utils.pick_first ∅
    [("b", [Py.VStr "Onbekend"; Py.VStr "Anders"; Py.VStr "Onbekend"])] ja_nee
  = Ok ([("b", [Py.VStr "Onbekend"; Py.VStr "Anders"; Py.VStr "Onbekend"])],
        ja_nee)
  /\ Utils.fill_booleans Utils.pick_first ∅ two_columns ja_nee
     = Ok ([("a", [Py.VNum (Py.NFloat 1); Py.VNum (Py.NFloat 0);
                   Py.VNum Py.NNaN]);
            ("b", [Py.VNum Py.NNaN; Py.VNum Py.NNaN; Py.VNum Py.NNaN])],
           [("bool", [(Py.VStr "Ja", Py.NInt 1); (Py.VStr "Nee", Py.NInt 0);
                      (Py.VStr "Onbekend", Py.NNaN);
                      (Py.VStr "Anders", Py.NNaN)])]).
Proof. split; reflexivity. Qed.

(** ** The merged dataset *)

Section MergeFacts.

Import Py DomainAnalyser.

Lemma Qeq_bool_sym p q : Qeq_bool p q = Qeq_bool q p.
Proof. unfold Qeq_bool. apply Z.eqb_sym. Qed.

Lemma py_eq_sym x y : py_eq x y = py_eq y x.
Proof.
  destruct x as [s|[a|p|]|], y as [t|[b|q|]|]; simpl; try done.
  - apply String.eqb_sym.
  - apply Z.eqb_sym.
  - apply Qeq_bool_sym.
  - apply Qeq_bool_sym.
  - apply Qeq_bool_sym.
Qed.

Lemma pd_eq_sym x y : pd_eq x y = pd_eq y x.
Proof.
  destruct x as [s|[a|p|]|], y as [t|[b|q|]|]; try done;
    apply (py_eq_sym _ _).
Qed.

Lemma pd_eq_refl x : pd_eq x x = true.
Proof.
  destruct x as [s|[a|p|]|]; simpl; try done.
  - apply String.eqb_refl.
  - apply Z.eqb_refl.
  - apply Qeq_bool_iff. reflexivity.
Qed.

Lemma index_of_In label cols :
  In label cols -> exists i, index_of label cols = Some i.
Proof.
  induction cols as [|c rest IH]; [done|]. simpl.
  destruct (String.eqb label c) eqn:Heq; [by eexists|].
  intros [->|Hin]; [by rewrite String.eqb_refl in Heq|].
  destruct (IH Hin) as [i ->]. by eexists.
Qed.

(** The rows of the join are the pairs of a left and a right row with
    the same key. *)
Lemma joined_rows_In i j left right row :
  In row (joined_rows i j left right)
  <-> exists l r,
        In l left /\ In r right
        /\ merge_eq (at_index i l) (at_index j r) = true
        /\ row = l ++ remove_at j r.
Proof.
  unfold joined_rows. rewrite in_flat_map. split.
  - intros (l & Hl & Hrow). apply in_map_iff in Hrow as (r & <- & Hr).
    apply filter_In in Hr as [Hr Hkey]. by exists l, r.
  - intros (l & r & Hl & Hr & Hkey & ->). exists l. split; [done|].
    apply in_map_iff. exists r. split; [done|]. by apply filter_In.
Qed.

(** Rows kept by the mask of line 342 carry a value no row seen before
    carries. *)
Lemma first_occurrences_fresh b seen rs r :
  In r (first_occurrences b seen rs) ->
  In r rs /\ existsb (pd_eq (at_index b r)) seen = false.
Proof.
  revert seen. induction rs as [|x rest IH]; intros seen; [done|]. simpl.
  destruct (existsb (pd_eq (at_index b x)) seen) eqn:Hseen.
  - intros Hin. destruct (IH seen Hin). auto.
  - intros [<-|Hin]; [auto|].
    destruct (IH _ Hin) as [Hrest Hfresh]. simpl in Hfresh.
    apply orb_false_iff in Hfresh as [_ Hfresh]. auto.
Qed.

Lemma first_occurrences_distinct b seen rs m n rm rn :
  (m < n)%nat ->
  nth_error (first_occurrences b seen rs) m = Some rm ->
  nth_error (first_occurrences b seen rs) n = Some rn ->
  pd_eq (at_index b rn) (at_index b rm) = false.
Proof.
  revert seen m n. induction rs as [|x rest IH]; intros seen m n Hlt.
  - by destruct m.
  - simpl. destruct (existsb (pd_eq (at_index b x)) seen).
    + by apply IH.
    + destruct n as [|n]; [lia|]. destruct m as [|m]; simpl.
      * intros [= <-] Hn. apply nth_error_In in Hn.
        apply first_occurrences_fresh in Hn as [_ Hfresh]. simpl in Hfresh.
        by apply orb_false_iff in Hfresh as [Hx _].
      * apply IH. lia.
Qed.

(** Every row is represented: a row at or before it with the same value
    is kept, unless the value was seen before the table started. *)
Lemma first_occurrences_represent b seen rs k x :
  nth_error rs k = Some x ->
  existsb (pd_eq (at_index b x)) seen = true
  \/ exists m y,
       (m <= k)%nat /\ nth_error rs m = Some y
       /\ In y (first_occurrences b seen rs)
       /\ pd_eq (at_index b x) (at_index b y) = true.
Proof.
  revert seen k. induction rs as [|r rest IH]; intros seen k.
  - by destruct k.
  - simpl. destruct (existsb (pd_eq (at_index b r)) seen) eqn:Hseen.
    + destruct k as [|k]; simpl.
      * intros [= <-]. by left.
      * intros Hk.
        destruct (IH seen k Hk) as [Hs|(m & y & Hm & Hy & Hin & Heq)];
          [by left|].
        right. exists (S m), y. split; [lia|]. by split.
    + destruct k as [|k]; simpl.
      * intros [= <-]. right. exists 0%nat, r. split; [lia|].
        split; [done|]. split; [by left|apply pd_eq_refl].
      * intros Hk.
        destruct (IH (at_index b r :: seen) k Hk)
          as [Hs|(m & y & Hm & Hy & Hin & Heq)].
        -- simpl in Hs. apply orb_true_iff in Hs as [Hr|Hs]; [|by left].
           right. exists 0%nat, r. split; [lia|].
           split; [done|]. split; [by left|done].
        -- right. exists (S m), y. split; [lia|].
           split; [done|]. split; [by right|done].
Qed.

(** A row of the table is kept when no row before it, and no value seen
    before the table, carries its value. *)
Lemma first_occurrences_keeps b seen before x after :
  existsb (pd_eq (at_index b x)) seen = false ->
  (forall y, In y before -> pd_eq (at_index b y) (at_index b x) = false) ->
  In x (first_occurrences b seen (before ++ x :: after)).
Proof.
  revert seen. induction before as [|y rest IH]; intros seen Hseen Hbefore.
  - simpl. rewrite Hseen. by left.
  - simpl. destruct (existsb (pd_eq (at_index b y)) seen).
    + apply IH; [done|]. intros z Hz. apply Hbefore. by right.
    + right. apply IH.
      * simpl. rewrite pd_eq_sym, (Hbefore y) by (by left). exact Hseen.
      * intros z Hz. apply Hbefore. by right.
Qed.

(** The join lists the pairs by register row first, then by scan-result
    row. *)
Lemma joined_rows_split i j R1 l R2 T1 t T2 :
  merge_eq (at_index i l) (at_index j t) = true ->
  joined_rows i j (R1 ++ l :: R2) (T1 ++ t :: T2)
  = (joined_rows i j R1 (T1 ++ t :: T2)
     ++ map (fun r => l ++ remove_at j r)
          (List.filter (fun r => merge_eq (at_index i l) (at_index j r)) T1))
    ++ (l ++ remove_at j t)
    :: (map (fun r => l ++ remove_at j r)
          (List.filter (fun r => merge_eq (at_index i l) (at_index j r)) T2)
        ++ joined_rows i j R2 (T1 ++ t :: T2)).
Proof.
  intros Hkey. unfold joined_rows. rewrite flat_map_app. simpl.
  rewrite List.filter_app. simpl. rewrite Hkey.
  rewrite map_app. simpl. by rewrite <- !app_assoc.
Qed.

(** C2.  For every register table and scan-result table that carry the
    key column, and whose join carries the weight column and [be_id]:
    the dataset is built, and in it (1) no two rows carry the same
    [be_id]; (2) no row misses its weight; (3) every row is a register
    row beside a scan-result row with the same key, so a row that has no
    partner on the other side takes no part; (4) the first occurrence
    wins: a register row beside a scan-result row with the same key and
    with a weight is in the dataset whenever no such pair before it (by
    register row, then by scan-result row) carries its [be_id]; and (5)
    every such pair has its [be_id] in the dataset. *)
Theorem merged_dataset_invariant
    (records tables : DataFrame) (url_key weight_key : string) :
  In url_key (columns records) ->
  In url_key (columns tables) ->
  (forall j, index_of url_key (columns tables) = Some j ->
     In weight_key (merged_columns records tables url_key j)
     /\ In be_id (merged_columns records tables url_key j)) ->
  exists df i j,
    merge_dataset records tables url_key weight_key = Ok df
    /\ index_of url_key (columns records) = Some i
    /\ index_of url_key (columns tables) = Some j
    /\ columns df = merged_columns records tables url_key j
    /\ (forall m n rm rn,
          (m < n)%nat ->
          nth_error (rows df) m = Some rm ->
          nth_error (rows df) n = Some rn ->
          pd_eq (cell (columns df) be_id rm) (cell (columns df) be_id rn)
          = false)
    /\ (forall r,
          In r (rows df) ->
          is_missing (cell (columns df) weight_key r) = false)
    /\ (forall r,
          In r (rows df) ->
          exists l t,
            In l (rows records) /\ In t (rows tables)
            /\ merge_eq (at_index i l) (at_index j t) = true
            /\ r = l ++ remove_at j t)
    /\ (forall R1 l R2 T1 t T2,
          rows records = R1 ++ l :: R2 ->
          rows tables = T1 ++ t :: T2 ->
          merge_eq (at_index i l) (at_index j t) = true ->
          is_missing (cell (columns df) weight_key (l ++ remove_at j t))
          = false ->
          (forall l' t',
             (In l' R1 /\ In t' (rows tables)) \/ (l' = l /\ In t' T1) ->
             merge_eq (at_index i l') (at_index j t') = true ->
             is_missing (cell (columns df) weight_key (l' ++ remove_at j t'))
             = false ->
             pd_eq (cell (columns df) be_id (l' ++ remove_at j t'))
               (cell (columns df) be_id (l ++ remove_at j t)) = false) ->
          In (l ++ remove_at j t) (rows df))
    /\ (forall l t,
          In l (rows records) -> In t (rows tables) ->
          merge_eq (at_index i l) (at_index j t) = true ->
          is_missing (cell (columns df) weight_key (l ++ remove_at j t))
          = false ->
          exists y,
            In y (rows df)
            /\ pd_eq (cell (columns df) be_id (l ++ remove_at j t))
                 (cell (columns df) be_id y) = true).
Proof.
  intros Hleft Hright Hcols.
  destruct (index_of_In _ _ Hleft) as [i Hi].
  destruct (index_of_In _ _ Hright) as [j Hj].
  destruct (Hcols j Hj) as [Hweight Hbe].
  destruct (index_of_In _ _ Hweight) as [w Hw].
  destruct (index_of_In _ _ Hbe) as [b Hb].
  set (cols := merged_columns records tables url_key j) in *.
  set (joined := joined_rows i j (rows records) (rows tables)).
  set (weighted :=
         List.filter (fun r => negb (is_missing (at_index w r))) joined).
  exists (mkFrame cols (first_occurrences b [] weighted)), i, j.
  assert (Hcellw : forall r, cell cols weight_key r = at_index w r)
    by (intros r; unfold cell; by rewrite Hw).
  assert (Hcellb : forall r, cell cols be_id r = at_index b r)
    by (intros r; unfold cell; by rewrite Hb).
  split.
  { unfold merge_dataset, merge. rewrite Hi, Hj. simpl.
    unfold dropna. simpl. fold cols. rewrite Hw. simpl.
    unfold drop_duplicates. simpl. by rewrite Hb. }
  split; [done|]. split; [done|]. split; [done|]. simpl.
  split; [|split; [|split; [|split]]].
  - intros m n rm rn Hlt Hm Hn. rewrite !Hcellb, pd_eq_sym.
    by apply (first_occurrences_distinct b [] weighted m n).
  - intros r Hin. rewrite Hcellw.
    apply first_occurrences_fresh in Hin as [Hin _].
    apply filter_In in Hin as [_ Hpresent]. by apply negb_true_iff.
  - intros r Hin.
    apply first_occurrences_fresh in Hin as [Hin _].
    apply filter_In in Hin as [Hin _]. by apply joined_rows_In.
  - intros R1 l R2 T1 t T2 HR HT Hkey Hpresent Hfirst.
    rewrite Hcellw in Hpresent.
    subst weighted joined. rewrite HR, HT.
    rewrite (joined_rows_split i j R1 l R2 T1 t T2 Hkey).
    rewrite List.filter_app. simpl. rewrite Hpresent. simpl.
    apply first_occurrences_keeps; [done|].
    intros y Hy. apply filter_In in Hy as [Hy Hwy].
    apply negb_true_iff in Hwy. rewrite <- !Hcellb.
    apply in_app_or in Hy as [Hy|Hy].
    + apply joined_rows_In in Hy as (l' & t' & Hl' & Ht' & Hk' & ->).
      apply Hfirst; [|done|by rewrite Hcellw].
      left. split; [done|]. by rewrite HT.
    + apply in_map_iff in Hy as (t' & <- & Ht').
      apply filter_In in Ht' as [Ht' Hk'].
      apply Hfirst; [|done|by rewrite Hcellw]. right. by split.
  - intros l t Hl Ht Hkey Hpresent. rewrite Hcellw in Hpresent.
    assert (Hin : In (l ++ remove_at j t) weighted).
    { apply filter_In. split; [|by rewrite Hpresent].
      apply joined_rows_In. by exists l, t. }
    apply In_nth_error in Hin as [k Hk].
    destruct (first_occurrences_represent b [] weighted k _ Hk)
      as [Hs|(m & y & Hm & Hy & Hkept & Heq)]; [done|].
    exists y. by rewrite !Hcellb.
Qed.

End MergeFacts.

(** The specification's scenario: the first business has a weight and a
    scanned domain, and is in the dataset. *)
Lemma merged_dataset_invariant_witness :
  exists df i j,
    DomainAnalyser.merge_dataset sample_records sample_tables
      "website_url" "ratio_units" = Ok df
    /\ DomainAnalyser.index_of "website_url"
         (DomainAnalyser.columns sample_records) = Some i
    /\ DomainAnalyser.index_of "website_url"
         (DomainAnalyser.columns sample_tables) = Some j
    /\ In [Py.VNum (Py.NInt 1); Py.VStr "alpha"; Py.VNum (Py.NInt 1);
           Py.VNum (Py.NInt 80)] (DomainAnalyser.rows df)
    /\ forall r,
         In r (DomainAnalyser.rows df) ->
         Py.is_missing
           (DomainAnalyser.cell (DomainAnalyser.columns df) "ratio_units" r)
         = false.
Proof.
  destruct (merged_dataset_invariant sample_records sample_tables
              "website_url" "ratio_units")
    as (df & i & j & Hdf & Hi & Hj & Hcols & _ & Hweight & _ & Hfirst & _).
  - simpl. tauto.
  - simpl. tauto.
  - intros j [= <-]. split; simpl; tauto.
  - exists df, i, j. split; [done|]. split; [done|]. split; [done|].
    split; [|done].
    injection Hi as <-. injection Hj as <-.
    refine (Hfirst []
              [Py.VNum (Py.NInt 1); Py.VStr "alpha"; Py.VNum (Py.NInt 1)]
              [[Py.VNum (Py.NInt 2); Py.VStr "beta"; Py.VNum (Py.NInt 2)];
               [Py.VNum (Py.NInt 3); Py.VStr "gamma"; Py.VNone]]
              [] [Py.VStr "alpha"; Py.VNum (Py.NInt 80)]
              [[Py.VStr "gamma"; Py.VNum (Py.NInt 55)]]
              eq_refl eq_refl eq_refl _ _).
    + by rewrite Hcols.
    + intros l' t' [[[] _]|[_ []]].
Defined.

Lemma merged_dataset_scenario :
  DomainAnalyser.merge_dataset sample_records sample_tables
    "website_url" "ratio_units"
  = Ok (DomainAnalyser.mkFrame
          ["be_id"; "website_url"; "ratio_units"; "score"]
          [[Py.VNum (Py.NInt 1); Py.VStr "alpha"; Py.VNum (Py.NInt 1);
            Py.VNum (Py.NInt 80)]]).
Proof. reflexivity. Qed.

(** ** Domain extraction *)

Section GetDomainFacts.

Import Py Utils Tldextract.

(** *** Characters that the cuts remove *)

Lemma before_first_lacks c s : has_char c (before_first c s) = false.
Proof.
  induction s as [|x rest IH]; [done|]. simpl.
  destruct (Ascii.eqb x c) eqn:Hx; [done|]. simpl. by rewrite Hx.
Qed.

Lemma before_first_sub c x s :
  has_char x s = false -> has_char x (before_first c s) = false.
Proof.
  induction s as [|y rest IH]; [done|]. simpl.
  intros [Hy Hrest]%orb_false_iff.
  destruct (Ascii.eqb y c); [done|]. simpl. rewrite Hy. by apply IH.
Qed.

Lemma before_first_id c s : has_char c s = false -> before_first c s = s.
Proof.
  induction s as [|y rest IH]; [done|]. simpl.
  intros [Hy Hrest]%orb_false_iff. rewrite Hy. by rewrite IH.
Qed.

Lemma split_on_id c s : has_char c s = false -> split_on c s = [s].
Proof.
  induction s as [|y rest IH]; [done|]. simpl.
  intros [Hy Hrest]%orb_false_iff. rewrite Hy. by rewrite IH.
Qed.

Lemma split_on_sub c x s :
  has_char x s = false ->
  List.Forall (fun l => has_char x l = false) (split_on c s).
Proof.
  induction s as [|y rest IH]; [by repeat constructor|]. simpl.
  intros [Hy Hrest]%orb_false_iff. specialize (IH Hrest).
  destruct (Ascii.eqb y c); [by constructor|].
  destruct (split_on c rest) as [|first others].
  - constructor; [|done]. simpl. by rewrite Hy.
  - apply List.Forall_cons_iff in IH as [Hfirst Hothers].
    constructor; [|done]. simpl. by rewrite Hy.
Qed.

Lemma split_on_sep c s :
  List.Forall (fun l => has_char c l = false) (split_on c s).
Proof.
  induction s as [|y rest IH]; [by repeat constructor|]. simpl.
  destruct (Ascii.eqb y c) eqn:Hy; [by constructor|].
  destruct (split_on c rest) as [|first others].
  - constructor; [|done]. simpl. by rewrite Hy.
  - apply List.Forall_cons_iff in IH as [Hfirst Hothers].
    constructor; [|done]. simpl. by rewrite Hy.
Qed.

Lemma split_on_nonempty c s : split_on c s <> [].
Proof.
  destruct s as [|y rest]; [done|]. simpl.
  destruct (Ascii.eqb y c); [done|]. by destruct (split_on c rest).
Qed.

Lemma last_Forall {A : Type} (P : A -> Prop) (l : list A) (d : A) :
  List.Forall P l -> l <> [] -> P (List.last l d).
Proof.
  induction 1 as [|x rest Hx Hrest IH]; [done|]. intros _.
  destruct rest as [|y rest']; [done|]. by apply IH.
Qed.

Lemma nth_Forall {A : Type} (P : A -> Prop) (l : list A) (d : A) n :
  List.Forall P l -> P d -> P (nth n l d).
Proof.
  intros Hl Hd. revert n. induction Hl as [|x rest Hx Hrest IH]; intros n.
  - by destruct n.
  - destruct n as [|n]; [done|]. apply IH.
Qed.

Lemma last_split_on_sub c x s :
  has_char x s = false ->
  has_char x (List.last (split_on c s) EmptyString) = false.
Proof.
  intros Hs.
  apply (last_Forall (fun l => has_char x l = false));
    [by apply split_on_sub|apply split_on_nonempty].
Qed.

Lemma last_split_on_lacks c s :
  has_char c (List.last (split_on c s) EmptyString) = false.
Proof.
  apply (last_Forall (fun l => has_char c l = false));
    [apply split_on_sep|apply split_on_nonempty].
Qed.

Lemma rstrip_sub p x s :
  has_char x s = false -> has_char x (rstrip p s) = false.
Proof.
  induction s as [|y rest IH]; [done|]. simpl.
  intros [Hy Hrest]%orb_false_iff. specialize (IH Hrest).
  destruct (rstrip p rest) as [|a kept].
  - destruct (p y); [done|]. simpl. by rewrite Hy.
  - change (has_char x (String y (String a kept)))
      with (Ascii.eqb y x || has_char x (String a kept)).
    by rewrite Hy, IH.
Qed.

Lemma rstrip_dots_id s :
  has_char "." s = false -> rstrip (Ascii.eqb ".") s = s.
Proof.
  induction s as [|y rest IH]; [done|]. cbn [rstrip has_char].
  intros [Hy Hrest]%orb_false_iff. rewrite (IH Hrest).
  destruct rest; [|done]. by rewrite Ascii.eqb_sym, Hy.
Qed.

Lemma substring_sub x n m s :
  has_char x s = false -> has_char x (substring n m s) = false.
Proof.
  revert n m. induction s as [|y rest IH]; intros n m.
  - by destruct n, m.
  - simpl. intros [Hy Hrest]%orb_false_iff.
    destruct n as [|n].
    + destruct m as [|m]; [done|]. simpl. rewrite Hy. by apply IH.
    + by apply IH.
Qed.

Lemma span_snd_sub p x s :
  has_char x s = false -> has_char x (snd (span p s)) = false.
Proof.
  induction s as [|y rest IH]; [done|]. simpl.
  intros Hs. pose proof Hs as [Hy Hrest]%orb_false_iff.
  destruct (p y).
  - specialize (IH Hrest). by destruct (span p rest).
  - exact Hs.
Qed.

Lemma starts_with_has_char a p s :
  starts_with (String a p) s = true -> has_char a s = true.
Proof.
  destruct s as [|b rest]; [done|]. simpl.
  intros [Hab _]%andb_true_iff. by rewrite Ascii.eqb_sym, Hab.
Qed.

Lemma starts_with_tail a p s :
  starts_with (String a p) s = true ->
  exists b rest, s = String b rest /\ starts_with p rest = true.
Proof.
  destruct s as [|b rest]; [done|]. simpl.
  intros [_ Hrest]%andb_true_iff. by exists b, rest.
Qed.

(** A string without a slash has no scheme to strip. *)
Lemma strip_scheme_id s : has_char "/" s = false -> strip_scheme s = s.
Proof.
  intros Hs. unfold strip_scheme.
  pose proof (span_snd_sub is_scheme_char "/" s Hs) as Hrest.
  destruct (span is_scheme_char s) as [scheme rest]. simpl in Hrest.
  destruct (starts_with "://" rest) eqn:Hcolon.
  { apply starts_with_tail in Hcolon as (b & rest' & -> & Hslash).
    apply starts_with_has_char in Hslash. simpl in Hrest.
    apply orb_false_iff in Hrest as [_ Hrest]. congruence. }
  rewrite andb_false_r.
  destruct (starts_with "//" s) eqn:Hslash; [|done].
  apply starts_with_has_char in Hslash. congruence.
Qed.

Lemma strip_scheme_sub x s :
  has_char x s = false -> has_char x (strip_scheme s) = false.
Proof.
  intros Hs. unfold strip_scheme.
  pose proof (span_snd_sub is_scheme_char x s Hs) as Hrest.
  destruct (span is_scheme_char s) as [scheme rest]. simpl in Hrest.
  destruct (_ && _).
  - by apply substring_sub.
  - destruct (starts_with "//" s); [|done]. by apply substring_sub.
Qed.

Variable lower : string -> string.
Variable strip : string -> string.
Variable tlds : string -> bool.
Variable idna_decode : string -> option string.
Variable looks_like_ip : string -> bool.

(** What the statements use of [str.lower] and [str.strip]: lowering
    twice is lowering once and makes none of the characters [/ ? # @ : .]
    appear; stripping removes characters only, twice is once, and it
    commutes with lowering. *)
Hypothesis lower_nil : lower "" = "".
Hypothesis lower_idem : forall s, lower (lower s) = lower s.
Hypothesis lower_delim :
  forall c s, is_delim c = true -> has_char c s = false ->
    has_char c (lower s) = false.
Hypothesis strip_chars :
  forall c s, has_char c s = false -> has_char c (strip s) = false.
Hypothesis strip_idem : forall s, strip (strip s) = strip s.
Hypothesis strip_lower : forall s, strip (lower s) = lower (strip s).

#[local] Abbreviation netloc := (netloc_of strip).
#[local] Abbreviation extract_str :=
  (Tldextract.extract_str lower strip tlds idna_decode looks_like_ip).
#[local] Abbreviation decode := (decode_punycode lower idna_decode).

Lemma strip_nil : strip "" = "".
Proof.
  destruct (strip "") as [|x rest] eqn:Hs; [done|].
  pose proof (strip_chars x "" eq_refl) as Hx. rewrite Hs in Hx.
  simpl in Hx. by rewrite Ascii.eqb_refl in Hx.
Qed.

(** *** The network location and its labels *)

Lemma netloc_of_lacks url c :
  In c ["/"; "?"; "#"; "@"; ":"]%char -> has_char c (netloc url) = false.
Proof.
  intros Hc. unfold netloc_of. cbv zeta.
  apply rstrip_sub, strip_chars.
  destruct Hc as [<-|[<-|[<-|[<-|[<-|[]]]]]].
  - apply before_first_sub, last_split_on_sub.
    do 2 apply before_first_sub. apply before_first_lacks.
  - apply before_first_sub, last_split_on_sub.
    apply before_first_sub. apply before_first_lacks.
  - apply before_first_sub, last_split_on_sub. apply before_first_lacks.
  - apply before_first_sub, last_split_on_lacks.
  - apply before_first_lacks.
Qed.

Lemma labels_lack url c :
  is_delim c = true ->
  List.Forall (fun l => has_char c l = false) (split_on "." (netloc url)).
Proof.
  intros Hc. unfold is_delim in Hc. simpl in Hc.
  repeat (apply orb_true_iff in Hc as [Hc|Hc];
          [apply Ascii.eqb_eq in Hc; subst c|]); [..|done].
  1-5: apply split_on_sub, netloc_of_lacks; simpl; tauto.
  apply split_on_sep.
Qed.

(** The domain of an extraction is the whole network location, when that
    is taken for an IP address, and a label of it or nothing otherwise. *)
Lemma extract_str_domain url :
  (looks_like_ip (netloc url) = true /\ domain (extract_str url) = netloc url)
  \/ (forall c, is_delim c = true ->
        has_char c (domain (extract_str url)) = false).
Proof.
  unfold Tldextract.extract_str. cbv zeta.
  destruct (String.eqb _ "" && negb (String.eqb (netloc url) "")
            && looks_like_ip (netloc url)) eqn:Hip.
  - left. apply andb_true_iff in Hip as [_ Hip]. by split.
  - right. intros c Hc.
    destruct (suffix_index tlds 0 _) as [|before]; [done|]. simpl.
    apply (nth_Forall (fun l => has_char c l = false)); [|done].
    by apply labels_lack.
Qed.

(** The network location of a string that holds none of the characters
    at which a URL is cut is the string without surrounding white space,
    and it is a single label. *)
Lemma netloc_of_label d :
  (forall c, is_delim c = true -> has_char c d = false) ->
  netloc d = strip d /\ split_on "." (netloc d) = [strip d].
Proof.
  intros Hd.
  assert (Hnet : netloc d = strip d).
  { unfold netloc_of. cbv zeta.
    rewrite strip_scheme_id by (by apply Hd).
    rewrite (before_first_id "/" d) by (by apply Hd).
    rewrite (before_first_id "?" d) by (by apply Hd).
    rewrite (before_first_id "#" d) by (by apply Hd).
    rewrite (split_on_id "@" d) by (by apply Hd).
    change (List.last [d] EmptyString) with d.
    rewrite (before_first_id ":" d) by (by apply Hd).
    apply rstrip_dots_id, strip_chars. by apply Hd. }
  split; [done|]. rewrite Hnet. apply split_on_id, strip_chars. by apply Hd.
Qed.

Lemma suffix_index_one x :
  suffix_index tlds 0 [x] = 0%nat \/ suffix_index tlds 0 [x] = 1%nat.
Proof.
  simpl. destruct (tlds ("!" +:+ x)); [by right|].
  destruct (tlds x); [by left|]. destruct (tlds _); [by left|by right].
Qed.

(** Extraction from such a string: the string itself, stripped, unless it
    is taken for a public suffix. *)
Lemma extract_str_label d :
  (forall c, is_delim c = true -> has_char c d = false) ->
  domain (extract_str d)
  = if (suffix_index tlds 0 [decode (strip d)] =? 1)%nat then strip d
    else "".
Proof.
  intros Hd. destruct (netloc_of_label d Hd) as [Hnet Hlabels].
  unfold Tldextract.extract_str. cbv zeta. rewrite Hlabels, Hnet.
  change (map decode [strip d]) with [decode (strip d)].
  destruct (suffix_index_one (decode (strip d))) as [-> | ->].
  - change (join_dots (skipn 0 [strip d])) with (strip d).
    destruct (String.eqb (strip d) "") eqn:Hempty; [|done].
    apply String.eqb_eq in Hempty. by rewrite Hempty.
  - change (join_dots (skipn 1 [strip d])) with "". simpl.
    by destruct (negb (String.eqb (strip d) "") && looks_like_ip (strip d)).
Qed.

End GetDomainFacts.


(** *** [str.lower] and [str.strip] on ASCII text *)

Lemma ascii_lower_idem c : ascii_lower (ascii_lower c) = ascii_lower c.
Proof. by destruct c as [[] [] [] [] [] [] [] []]. Qed.

Lemma str_lower_idem s : str_lower (str_lower s) = str_lower s.
Proof.
  induction s as [|c rest IH]; [done|]. simpl. by rewrite ascii_lower_idem, IH.
Qed.

Lemma ascii_lower_delim y c :
  Tldextract.is_delim c = true ->
  Ascii.eqb y c = false -> Ascii.eqb (ascii_lower y) c = false.
Proof.
  intros Hc. unfold Tldextract.is_delim in Hc. simpl in Hc.
  repeat (apply orb_true_iff in Hc as [Hc|Hc];
          [apply Ascii.eqb_eq in Hc; subst c|]); [..|done];
    by destruct y as [[] [] [] [] [] [] [] []].
Qed.

Lemma str_lower_delim c s :
  Tldextract.is_delim c = true ->
  Tldextract.has_char c s = false ->
  Tldextract.has_char c (str_lower s) = false.
Proof.
  intros Hc. induction s as [|y rest IH]; [done|].
  cbn [str_lower Tldextract.has_char].
  intros [Hy Hrest]%orb_false_iff.
  by rewrite (ascii_lower_delim y c Hc Hy), IH.
Qed.

Lemma is_space_lower c :
  Tldextract.is_space (ascii_lower c) = Tldextract.is_space c.
Proof. by destruct c as [[] [] [] [] [] [] [] []]. Qed.

Lemma lstrip_sub p x s :
  Tldextract.has_char x s = false ->
  Tldextract.has_char x (Tldextract.lstrip p s) = false.
Proof.
  induction s as [|y rest IH]; [done|]. cbn [Tldextract.lstrip].
  intros Hs. destruct (p y); [|done]. apply IH.
  cbn [Tldextract.has_char] in Hs. by apply orb_false_iff in Hs as [_ Hs].
Qed.

Lemma ascii_strip_chars c s :
  Tldextract.has_char c s = false ->
  Tldextract.has_char c (Tldextract.ascii_strip s) = false.
Proof. intros Hs. by apply rstrip_sub, lstrip_sub. Qed.

Lemma lstrip_head p s :
  Tldextract.lstrip p s = EmptyString
  \/ exists y rest, Tldextract.lstrip p s = String y rest /\ p y = false.
Proof.
  induction s as [|y rest IH]; [by left|]. cbn [Tldextract.lstrip].
  destruct (p y) eqn:Hy; [done|]. right. by exists y, rest.
Qed.

Lemma rstrip_head p y rest :
  p y = false ->
  exists kept, Tldextract.rstrip p (String y rest) = String y kept.
Proof.
  intros Hy. cbn [Tldextract.rstrip].
  destruct (Tldextract.rstrip p rest) as [|a kept].
  - rewrite Hy. by eexists.
  - by eexists.
Qed.

Lemma rstrip_idem p s :
  Tldextract.rstrip p (Tldextract.rstrip p s) = Tldextract.rstrip p s.
Proof.
  induction s as [|y rest IH]; [done|]. cbn [Tldextract.rstrip].
  destruct (Tldextract.rstrip p rest) as [|a kept] eqn:Hrest.
  - destruct (p y) eqn:Hy; [done|]. cbn [Tldextract.rstrip]. by rewrite Hy.
  - change (Tldextract.rstrip p (String y (String a kept)))
      with (match Tldextract.rstrip p (String a kept) with
            | EmptyString => if p y then EmptyString else String y EmptyString
            | String b k => String y (String b k)
            end).
    by rewrite IH.
Qed.

Lemma ascii_strip_idem s :
  Tldextract.ascii_strip (Tldextract.ascii_strip s) = Tldextract.ascii_strip s.
Proof.
  unfold Tldextract.ascii_strip.
  destruct (lstrip_head Tldextract.is_space s) as [->|(y & rest & -> & Hy)];
    [done|].
  destruct (rstrip_head Tldextract.is_space y rest Hy) as [kept Hkept].
  rewrite Hkept. cbn [Tldextract.lstrip]. rewrite Hy, <- Hkept.
  apply rstrip_idem.
Qed.

Lemma lstrip_lower s :
  Tldextract.lstrip Tldextract.is_space (str_lower s)
  = str_lower (Tldextract.lstrip Tldextract.is_space s).
Proof.
  induction s as [|y rest IH]; [done|].
  cbn [str_lower Tldextract.lstrip]. rewrite is_space_lower.
  by destruct (Tldextract.is_space y).
Qed.

Lemma rstrip_lower s :
  Tldextract.rstrip Tldextract.is_space (str_lower s)
  = str_lower (Tldextract.rstrip Tldextract.is_space s).
Proof.
  induction s as [|y rest IH]; [done|].
  cbn [str_lower Tldextract.rstrip]. rewrite IH, is_space_lower.
  destruct (Tldextract.rstrip Tldextract.is_space rest) as [|a kept].
  - by destruct (Tldextract.is_space y).
  - done.
Qed.

Lemma ascii_strip_lower s :
  Tldextract.ascii_strip (str_lower s) = str_lower (Tldextract.ascii_strip s).
Proof.
  unfold Tldextract.ascii_strip. by rewrite lstrip_lower, rstrip_lower.
Qed.



(** ** A run of the state machine *)

(** With no [reset] value and both caches on disk, the constructor only
    reads the statistics cache. *)
Lemma reset_cache_state_machine_witness :
  let files : gset string := {["tables_df.pkl"; "cache/sector.pkl"]} in
  let run :=
    Pipeline.init sample_join "tables_df.pkl" "cache" None ["sector"] false
      files in
  Pipeline.trace run = [Pipeline.LoadStats "sector"]
  /\ Pipeline.disk run = files.
Proof.
  intros files run.
  destruct (reset_cache_state_machine sample_join "tables_df.pkl" "cache"
              None ["sector"] files)
    as (_ & _ & _ & _ & _ & Hcached & _).
  apply Hcached.
  - reflexivity.
  - subst files. set_solver.
  - intros fb [<-|[]]. subst files.
    change (Pipeline.stats_cache_file sample_join "cache" "sector")
      with "cache/sector.pkl".
    set_solver.
Defined.

(** ** The option mask on the specification's example *)

Lemma get_option_mask_dict_witness :
  Utils.get_option_mask sample_question sample_variables
  = Ok [true; false; true; false].
Proof.
  rewrite (get_option_mask_dict sample_question
             (Utils.mkRow "tls_available_1.0" "Passed")
             (tl sample_question) sample_variables
             (Utils.mkVar (Some "dict") None));
    reflexivity.
Defined.


(** * Further properties *)

(** ** The option mask: other types, errors, and the suffix of a name *)

(** Any type but [dict] selects every row of the specification's example
    table. *)
Lemma get_option_mask_other_witness :
  Utils.get_option_mask sample_question
    {["tls_available" := Utils.mkVar (Some "float") None]}
  = Ok [true; true; true; true].
Proof.
  rewrite (get_option_mask_other sample_question
             (Utils.mkRow "tls_available_1.0" "Passed")
             (tl sample_question)
             {["tls_available" := Utils.mkVar (Some "float") None]}
             (Utils.mkVar (Some "float") None));
    [reflexivity|reflexivity|reflexivity|discriminate].
Defined.

(** The mask has one entry per row; a table without rows raises
    [IndexError]; a question whose stripped name is not in the
    variable-metadata table raises [KeyError] with that name. *)
Theorem get_option_mask_edges
    (question_df : list Utils.question_row)
    (variables : gmap string Utils.var_props) :
  (forall mask,
     Utils.get_option_mask question_df variables = Ok mask ->
     length mask = length question_df)
  /\ (question_df = [] ->
      Utils.get_option_mask question_df variables
      = Raise (IndexError "values[0]"))
  /\ (forall first rest,
        question_df = first :: rest ->
        variables !! Utils.strip_suffix (Utils.variable first) = None ->
        Utils.get_option_mask question_df variables
        = Raise (KeyError (Utils.strip_suffix (Utils.variable first))))
  /\ (forall first rest,
        question_df = first :: rest ->
        is_Some (variables !! Utils.strip_suffix (Utils.variable first)) ->
        exists mask, Utils.get_option_mask question_df variables = Ok mask).
Proof.
  split; [|split; [|split]].
  - intros mask. unfold Utils.get_option_mask.
    destruct question_df as [|first rest]; [done|].
    destruct (variables !! _) as [props|]; [|done].
    destruct (match Utils.var_type props with Some _ => _ | None => _ end);
      intros [= <-]; simpl; f_equal; apply length_map.
  - by intros ->.
  - intros first rest -> Hnone. unfold Utils.get_option_mask.
    by rewrite Hnone.
  - intros first rest -> [props Hprops]. unfold Utils.get_option_mask.
    rewrite Hprops.
    destruct (match Utils.var_type props with Some _ => _ | None => _ end);
      by eexists.
Qed.

Section StripSuffixFacts.

Import Utils.

Lemma length_append (a b : string) :
  String.length (a +:+ b) = (String.length a + String.length b)%nat.
Proof. induction a as [|c a IH]; [done|]. simpl. by rewrite IH. Qed.

Lemma substring_all (b : string) : substring 0 (String.length b) b = b.
Proof. induction b as [|c b IH]; [done|]. simpl. by rewrite IH. Qed.

Lemma substring_append_right (a b : string) :
  substring (String.length a) (String.length b) (a +:+ b) = b.
Proof.
  induction a as [|c a IH]; [apply substring_all|exact IH].
Qed.

Lemma substring_append_left (a b : string) :
  substring 0 (String.length a) (a +:+ b) = a.
Proof.
  induction a as [|c a IH]; simpl.
  - by destruct b.
  - by rewrite IH.
Qed.

(** The pattern of [get_option_mask] and [make_plots] removes the
    breakdown suffix: a name followed
    by an underscore, one digit and [.0] is cut back to the name, whatever
    the name is. *)
Lemma strip_suffix_with_suffix name d :
  is_digit d = true -> strip_suffix (with_suffix name d) = name.
Proof.
  intros Hd. unfold strip_suffix, with_suffix.
  set (suffix := String "_" (String d (String "." (String "0" EmptyString)))).
  rewrite length_append.
  change (String.length suffix) with 4%nat.
  replace (String.length name + 4 - 4)%nat with (String.length name) by lia.
  change 4%nat with (String.length suffix) at 1.
  rewrite substring_append_right.
  assert (Hpat : is_suffix_pattern suffix = true) by (subst suffix; exact Hd).
  rewrite Hpat.
  replace (4 <=? String.length name + 4)%nat with true
    by (symmetry; apply Nat.leb_le; lia).
  simpl andb. cbv iota. apply substring_append_left.
Qed.

End StripSuffixFacts.

Lemma strip_suffix_with_suffix_witness :
  Utils.strip_suffix (Utils.with_suffix "tls_available" "1") = "tls_available".
Proof. exact (strip_suffix_with_suffix "tls_available" "1" eq_refl). Defined.

(** ** What the boolean-fill helper keeps *)

Section FillBooleansShape.

Import Py Utils.

Variable pick : list value -> value.
Variable variables : gmap string var_props.

Lemma fill_column_length col column trs :
  length (fst (fill_column pick variables col column trs)) = length column.
Proof.
  unfold fill_column. destruct (convert_to_bool variables col); [|done].
  destruct (length (unique column) <=? 3)%nat; [|done].
  apply translate_column_length.
Qed.

Lemma fill_columns_shape t trs :
  labels (fst (fill_columns pick variables t trs)) = labels t
  /\ Forall2 (fun c c' => length (snd c') = length (snd c))
       t (fst (fill_columns pick variables t trs)).
Proof.
  revert trs. induction t as [|[col column] rest IH]; intros trs.
  - split; [done|constructor].
  - rewrite fill_columns_cons. simpl.
    destruct (IH (snd (fill_column pick variables col column trs)))
      as [Hlabels Hlengths].
    split.
    + unfold labels in *. simpl. by rewrite Hlabels.
    + constructor; [|done]. simpl. apply fill_column_length.
Qed.

(** The helper never adds, drops, renames or reorders a column, and never
    changes the number of rows of a column: the returned table has the
    labels of the given one, and each column its length. *)
Theorem fill_booleans_keeps_shape t trs t' trs' :
  fill_booleans pick variables t trs = Ok (t', trs') ->
  labels t' = labels t
  /\ Forall2 (fun c c' => length (snd c') = length (snd c)) t t'.
Proof.
  unfold fill_booleans. destruct (existsb _ _); [done|].
  intros [= Hresult]. pose proof (fill_columns_shape t trs) as Hshape.
  destruct (fill_columns pick variables t trs) as [t0 trs0].
  injection Hresult as <- <-. exact Hshape.
Qed.

(** A column without NaN cells none of whose values is a key of any
    translation entry is returned as it is, and so are the translations. *)
Theorem fill_column_without_match col column trs :
  ~ In (VNum NNaN) column ->
  Forall (fun e => intersects (keys (snd e)) (unique column) = false) trs ->
  fill_column pick variables col column trs = (column, trs).
Proof.
  intros _ Hnone. unfold fill_column.
  destruct (convert_to_bool variables col); [|done].
  destruct (length (unique column) <=? 3)%nat; [|done].
  rewrite <- (app_nil_r trs) at 1.
  rewrite (translate_column_skip pick (unique column) column trs [] Hnone).
  simpl. by rewrite app_nil_r.
Qed.

Hypothesis pick_In : forall l, l <> [] -> In (pick l) l.


End FillBooleansShape.

Lemma fill_booleans_keeps_shape_witness :
  Utils.labels
    [("a", [Py.VNum (Py.NFloat 1); Py.VNum (Py.NFloat 0); Py.VNum Py.NNaN]);
     ("b", [Py.VNum Py.NNaN; Py.VNum Py.NNaN; Py.VNum Py.NNaN])]
  = Utils.labels two_columns.
Proof.
  refine (proj1 (fill_booleans_keeps_shape Utils.pick_first ∅ two_columns
                   ja_nee _ _ _)).
  reflexivity.
Defined.

Lemma fill_column_without_match_witness :
  Utils.fill_column Utils.pick_first ∅ "score"
    [Py.VStr "goed"; Py.VStr "slecht"] ja_nee
  = ([Py.VStr "goed"; Py.VStr "slecht"], ja_nee).
Proof.
  apply fill_column_without_match.
  - simpl. intuition discriminate.
  - repeat constructor.
Defined.


(** ** The dataset export on tables with and without colliding names *)

Section WriteDataMore.

Import DomainAnalyser.

Variable lower : string -> string.

Lemma occurrences_NoDup g l : List.NoDup l -> (occurrences g l <= 1)%nat.
Proof.
  unfold occurrences. induction l as [|x rest IH]; simpl; [lia|].
  intros Hnd. apply List.NoDup_cons_iff in Hnd as [Hx Hnd].
  destruct (String.eqb g x) eqn:Heq; [|by apply IH].
  apply String.eqb_eq in Heq. subst x. simpl.
  assert (Hnone : List.filter (String.eqb g) rest = []).
  { clear -Hx. induction rest as [|y rest IH]; [done|]. simpl.
    destruct (String.eqb g y) eqn:Heq.
    - apply String.eqb_eq in Heq. subst y. exfalso. apply Hx. by left.
    - apply IH. intros Hin. apply Hx. by right. }
  by rewrite Hnone.
Qed.

Lemma NoDup_occurrences l :
  (forall g, (occurrences g l <= 1)%nat) -> List.NoDup l.
Proof.
  unfold occurrences. induction l as [|x rest IH]; intros Hocc; [constructor|].
  constructor.
  - intros Hin. specialize (Hocc x). simpl in Hocc.
    rewrite String.eqb_refl in Hocc. simpl in Hocc.
    assert (Hsome : In x (List.filter (String.eqb x) rest))
      by (apply filter_In; split; [done|apply String.eqb_refl]).
    destruct (List.filter (String.eqb x) rest); [done|simpl in Hocc; lia].
  - apply IH. intros g. specialize (Hocc g). simpl in Hocc.
    destruct (String.eqb g x); simpl in Hocc; lia.
Qed.

(** A table whose column names are distinct even when case is ignored is
    exported as it is. *)
Theorem write_data_without_collisions t :
  List.NoDup (map lower (Utils.labels t)) -> write_data lower t = t.
Proof.
  intros Hnd. rewrite write_data_filter.
  apply forallb_filter_id, forallb_forall. intros lc _.
  apply negb_true_iff. unfold is_dropped.
  replace (1 <? _)%nat with false; [done|].
  symmetry. apply Nat.ltb_ge. by apply occurrences_NoDup.
Qed.

Lemma occurrences_filter_le g (f : string -> bool) l :
  (occurrences g (map lower (List.filter f l))
   <= occurrences g (map lower l))%nat.
Proof.
  unfold occurrences. induction l as [|x rest IH]; simpl; [lia|].
  destruct (f x); simpl; destruct (String.eqb g (lower x)); simpl; lia.
Qed.

Lemma occurrences_filter_lt g (f : string -> bool) l x :
  In x l -> f x = false -> lower x = g ->
  (occurrences g (map lower (List.filter f l))
   < occurrences g (map lower l))%nat.
Proof.
  intros Hin Hf Hg. induction l as [|y rest IH]; [done|].
  destruct Hin as [->|Hin].
  - simpl. rewrite Hf. unfold occurrences at 2. simpl.
    rewrite Hg, String.eqb_refl. simpl.
    pose proof (occurrences_filter_le g f rest). unfold occurrences in *. lia.
  - specialize (IH Hin). simpl. unfold occurrences in *.
    destruct (f y); simpl; destruct (String.eqb g (lower y)); simpl; lia.
Qed.

(** When no name, ignoring case, is carried by more than two columns, the
    exported table has no two columns whose names are equal ignoring
    case. *)
Theorem write_data_removes_collisions t :
  (forall g, (occurrences g (map lower (Utils.labels t)) <= 2)%nat) ->
  List.NoDup (map lower (Utils.labels (write_data lower t))).
Proof.
  intros Htwo. apply NoDup_occurrences. intros g.
  rewrite write_data_filter.
  rewrite (labels_filter (fun c => negb (is_dropped lower t c))).
  destruct (Nat.le_gt_cases (occurrences g (map lower (Utils.labels t))) 1)
    as [Hone|Hmany].
  - etransitivity; [apply occurrences_filter_le|exact Hone].
  - destruct (first_spelling lower t g) as [c|] eqn:Hfirst.
    + pose proof Hfirst as Hc. unfold first_spelling in Hc.
      apply find_some in Hc as [Hin Hc]. apply String.eqb_eq in Hc.
      assert (Hdrop : negb (is_dropped lower t c) = false).
      { apply negb_false_iff. unfold is_dropped.
        rewrite Hc, Hfirst, String.eqb_refl, andb_true_r.
        by apply Nat.ltb_lt. }
      pose proof (occurrences_filter_lt g
                    (fun c => negb (is_dropped lower t c))
                    (Utils.labels t) c Hin Hdrop Hc).
      specialize (Htwo g). lia.
    + (* no column has this name at all *)
      exfalso. unfold first_spelling in Hfirst.
      assert (Hzero : occurrences g (map lower (Utils.labels t)) = 0%nat).
      { unfold occurrences. revert Hfirst.
        generalize (Utils.labels t). intros l.
        induction l as [|x rest IH]; [done|]. simpl.
        destruct (String.eqb (lower x) g) eqn:Hx; [done|].
        rewrite String.eqb_sym, Hx. exact IH. }
      lia.
Qed.

End WriteDataMore.

Lemma write_data_without_collisions_witness :
  DomainAnalyser.write_data str_lower
    [("be_id", [Py.VNum (Py.NInt 1)]); ("Score", [Py.VNum (Py.NInt 80)])]
  = [("be_id", [Py.VNum (Py.NInt 1)]); ("Score", [Py.VNum (Py.NInt 80)])].
Proof.
  apply write_data_without_collisions. simpl.
  constructor; [|constructor; [|constructor]]; simpl; intuition discriminate.
Defined.

Lemma write_data_removes_collisions_witness :
  List.NoDup
    (map str_lower
       (Utils.labels
          (DomainAnalyser.write_data str_lower
             [("Name", []); ("score", []); ("name", [])]))).
Proof.
  apply write_data_removes_collisions. intros g.
  change (map str_lower
            (Utils.labels [("Name", []); ("score", []); ("name", [])]))
    with ["name"; "score"; "name"].
  unfold DomainAnalyser.occurrences. simpl.
  destruct (String.eqb g "name") eqn:Hname;
    destruct (String.eqb g "score") eqn:Hscore; simpl; try lia.
  apply String.eqb_eq in Hname, Hscore. congruence.
Defined.

(** ** The merged dataset: missing and colliding columns *)

Section MergeMore.

Import Py DomainAnalyser.

Lemma index_of_None label cols :
  ~ In label cols -> index_of label cols = None.
Proof.
  induction cols as [|c rest IH]; [done|]. simpl. intros Hnot.
  destruct (String.eqb label c) eqn:Heq.
  - apply String.eqb_eq in Heq. subst c. exfalso. apply Hnot. by left.
  - rewrite IH; [done|]. intros Hin. apply Hnot. by right.
Qed.

Lemma remove_at_In {A : Type} (x : A) i l : In x (remove_at i l) -> In x l.
Proof.
  revert i. induction l as [|y rest IH]; intros i; [by destruct i|].
  destruct i as [|i]; simpl; [by right|].
  intros [->|Hin]; [by left|]. right. by apply (IH i).
Qed.

Lemma merge_dataset_without_weight records tables url_key weight_key i j :
  index_of url_key (columns records) = Some i ->
  index_of url_key (columns tables) = Some j ->
  ~ In weight_key (merged_columns records tables url_key j) ->
  merge_dataset records tables url_key weight_key = Raise (KeyError weight_key).
Proof.
  intros Hi Hj Hw. unfold merge_dataset, merge. rewrite Hi, Hj. simpl.
  unfold dropna. simpl. by rewrite (index_of_None _ _ Hw).
Qed.

(** The order in which missing columns are reported: the join key first,
    then the weight column, then [be_id]. *)
Theorem merge_dataset_missing_column
    (records tables : DataFrame) (url_key weight_key : string) :
  (~ In url_key (columns records) \/ ~ In url_key (columns tables) ->
   merge_dataset records tables url_key weight_key = Raise (KeyError url_key))
  /\ (forall i j,
        index_of url_key (columns records) = Some i ->
        index_of url_key (columns tables) = Some j ->
        ~ In weight_key (merged_columns records tables url_key j) ->
        merge_dataset records tables url_key weight_key
        = Raise (KeyError weight_key))
  /\ (forall i j,
        index_of url_key (columns records) = Some i ->
        index_of url_key (columns tables) = Some j ->
        In weight_key (merged_columns records tables url_key j) ->
        ~ In be_id (merged_columns records tables url_key j) ->
        merge_dataset records tables url_key weight_key
        = Raise (KeyError be_id)).
Proof.
  split; [|split].
  - intros Hmissing. unfold merge_dataset, merge.
    destruct Hmissing as [Hl|Hr].
    + by rewrite (index_of_None _ _ Hl).
    + rewrite (index_of_None _ _ Hr).
      by destruct (index_of url_key (columns records)).
  - intros i j. apply merge_dataset_without_weight.
  - intros i j Hi Hj Hw Hb. unfold merge_dataset, merge. rewrite Hi, Hj. simpl.
    unfold dropna. simpl.
    destruct (index_of_In _ _ Hw) as [w ->]. simpl.
    unfold drop_duplicates. simpl. by rewrite (index_of_None _ _ Hb).
Qed.

(** A weight column that both tables carry is renamed on both sides by the
    merge ([_x], [_y]), so the dataset is not built: dropping the rows
    without weight raises [KeyError] for the weight column. *)
Theorem merge_dataset_weight_on_both_sides
    (records tables : DataFrame) (url_key weight_key : string) :
  In url_key (columns records) ->
  In url_key (columns tables) ->
  weight_key <> url_key ->
  In weight_key (columns records) ->
  In weight_key (columns tables) ->
  (forall c, In c (columns records ++ columns tables) ->
     c +:+ "_x" <> weight_key /\ c +:+ "_y" <> weight_key) ->
  merge_dataset records tables url_key weight_key
  = Raise (KeyError weight_key).
Proof.
  intros Hkl Hkr Hne Hwl Hwr Hsuffix.
  destruct (index_of_In _ _ Hkl) as [i Hi].
  destruct (index_of_In _ _ Hkr) as [j Hj].
  apply (merge_dataset_without_weight records tables url_key weight_key i j
           Hi Hj).
  assert (Hmem : forall l, In weight_key l ->
            existsb (String.eqb weight_key) l = true).
  { intros l Hin. apply existsb_exists. exists weight_key.
    split; [done|apply String.eqb_refl]. }
  assert (Hside : forall suffix other c,
            In c (columns records ++ columns tables) ->
            In weight_key other ->
            (suffix = "_x" \/ suffix = "_y") ->
            suffixed url_key suffix other c <> weight_key).
  { intros suffix other c Hc Hother Hsuf. unfold suffixed.
    destruct (negb (String.eqb c url_key) && existsb (String.eqb c) other)
      eqn:Hcond.
    - destruct (Hsuffix c Hc) as [Hx Hy]. by destruct Hsuf as [-> | ->].
    - intros ->. apply andb_false_iff in Hcond as [Hcond|Hcond].
      + apply negb_false_iff, String.eqb_eq in Hcond. by apply Hne.
      + by rewrite (Hmem other Hother) in Hcond. }
  unfold merged_columns. intros Hin. apply in_app_or in Hin as [Hin|Hin];
    apply in_map_iff in Hin as (c & Hc & Hcin).
  - apply (Hside "_x" (columns tables) c); auto. apply in_or_app. by left.
  - apply (Hside "_y" (columns records) c); auto.
    apply in_or_app. right. by apply (remove_at_In _ j).
Qed.

End MergeMore.

Lemma merge_dataset_weight_on_both_sides_witness :
  DomainAnalyser.merge_dataset
    (DomainAnalyser.mkFrame ["be_id"; "website_url"; "gewicht"] [])
    (DomainAnalyser.mkFrame ["website_url"; "gewicht"] [])
    "website_url" "gewicht"
  = Raise (KeyError "gewicht").
Proof.
  apply merge_dataset_weight_on_both_sides; simpl; try tauto; try discriminate.
  intros c Hc. split; intuition (subst; discriminate).
Defined.


(** ** Plot caches and the plot loop *)

Section PlotFacts.

Import DomainAnalyser.

Variable path_join : string -> string -> string.
Variable cache_directory : string.
Variable variables : gmap string Utils.var_props.
Variable breakdown_labels : option (list string).
Variable max_plots : option nat.

#[local] Abbreviation cache_name := (make_plot_cache_file_name path_join cache_directory).

Lemma plot_question_fails plot_key label module_name all_plots question :
  exists e, forall render,
    plot_question variables render plot_key label module_name all_plots question
    = Failed e.
Proof.
  unfold plot_question. destruct (snd question) as [|first rest].
  - eexists. intros render. reflexivity.
  - destruct (variables !! _) as [props|]; eexists; intros render; reflexivity.
Qed.

Lemma plot_questions_fixed plot_key label module_name questions all_plots
    plot_count :
  exists o,
    (forall render,
       plot_questions variables max_plots render plot_key label module_name
         questions all_plots plot_count = o)
    /\ (forall r, o = Done r -> r = (all_plots, plot_count, false)).
Proof.
  destruct questions as [|question rest].
  - exists (Done (all_plots, plot_count, false)). split; [done|].
    by intros r [= <-].
  - destruct (plot_question_fails plot_key label module_name all_plots question)
      as [e He].
    exists (Failed e). split; [|done]. intros render. simpl. by rewrite He.
Qed.

Lemma plot_modules_fixed plot_key label modules all_plots plot_count
    stop_plotting :
  exists o,
    (forall render,
       plot_modules variables max_plots render plot_key label modules
         all_plots plot_count stop_plotting = o)
    /\ (forall c, o = Done c -> c = all_plots).
Proof.
  revert all_plots plot_count stop_plotting.
  induction modules as [|[module_name questions] rest IH];
    intros all_plots plot_count stop_plotting.
  - exists (Done all_plots). split; [done|]. by intros c [= <-].
  - destruct stop_plotting.
    { exists (Done all_plots). split; [done|]. by intros c [= <-]. }
    destruct (plot_questions_fixed plot_key label module_name questions
                all_plots plot_count) as (o & Ho & Hdone).
    destruct o as [r|e|code].
    + specialize (Hdone r eq_refl). subst r.
      destruct (IH all_plots plot_count false) as (o' & Ho' & Hdone').
      exists o'. split; [|done]. intros render. simpl. rewrite Ho. simpl.
      apply Ho'.
    + exists (Failed e). split; [|done]. intros render. simpl. by rewrite Ho.
    + exists (SystemExit code). split; [|done]. intros render. simpl.
      by rewrite Ho.
Qed.

Lemma make_plot_fixed disk all_plots plot :
  exists o,
    (forall render,
       make_plot path_join cache_directory variables breakdown_labels max_plots
         render disk all_plots plot = o)
    /\ (forall c, o = Done c -> c = all_plots).
Proof.
  unfold make_plot. destruct (negb _).
  { exists (Done all_plots). split; [done|]. by intros c [= <-]. }
  destruct (get_plot_cache _ _ disk (fst plot)) as [stats_df|e|code];
    [|by exists (Failed e)|by exists (SystemExit code)].
  simpl.
  destruct (match reference_lines (snd plot) with
            | Some ref_keys => load_reference_lines _ _ disk ref_keys
            | None => Done ()
            end) as [[]|e|code];
    [|by exists (Failed e)|by exists (SystemExit code)].
  simpl.
  destruct (if default false (use_breakdown_keys (snd plot))
            then breakdown_of breakdown_labels (fst plot) else Done ())
    as [[]|e|code]; [|by exists (Failed e)|by exists (SystemExit code)].
  simpl. apply plot_modules_fixed.
Qed.

Lemma make_plots_from_fixed disk plot_info all_plots :
  exists o,
    (forall render,
       make_plots_from path_join cache_directory variables breakdown_labels
         max_plots render disk plot_info all_plots = o)
    /\ (forall c, o = Done c -> c = all_plots).
Proof.
  induction plot_info as [|plot rest IH].
  - exists (Done all_plots). split; [done|]. by intros c [= <-].
  - destruct (make_plot_fixed disk all_plots plot) as (o & Ho & Hdone).
    destruct o as [c|e|code].
    + specialize (Hdone c eq_refl). subst c.
      destruct IH as (o' & Ho' & Hdone').
      exists o'. split; [|done]. intros render. simpl. rewrite Ho. apply Ho'.
    + exists (Failed e). split; [|done]. intros render. simpl. by rewrite Ho.
    + exists (SystemExit code). split; [|done]. intros render. simpl.
      by rewrite Ho.
Qed.

(** [make_plots] never draws: its outcome does not depend on what the
    plotting routine would return, and when it returns, the catalog of
    plots is empty.  Every question it reaches raises before line 428. *)
Theorem make_plots_never_plots
    (render render' :
       string -> string -> string -> list Utils.question_row -> list bool ->
       outcome string)
    (disk : gmap string stats_table) (plot_info : list (string * plot_prop)) :
  make_plots path_join cache_directory variables breakdown_labels max_plots
    render disk plot_info
  = make_plots path_join cache_directory variables breakdown_labels max_plots
      render' disk plot_info
  /\ (forall all_plots,
        make_plots path_join cache_directory variables breakdown_labels
          max_plots render disk plot_info = Done all_plots ->
        all_plots = []).
Proof.
  unfold make_plots.
  destruct (make_plots_from_fixed disk plot_info []) as (o & Ho & Hdone).
  split.
  - by rewrite (Ho render), (Ho render').
  - intros all_plots H. apply Hdone. by rewrite <- (Ho render).
Qed.

Lemma make_plots_from_skipped render disk skipped rest all_plots :
  Forall (fun plot => do_it (snd plot) = Some false) skipped ->
  make_plots_from path_join cache_directory variables breakdown_labels
    max_plots render disk (skipped ++ rest) all_plots
  = make_plots_from path_join cache_directory variables breakdown_labels
      max_plots render disk rest all_plots.
Proof.
  induction 1 as [|plot skipped Hplot _ IH]; [done|].
  simpl. unfold make_plot at 1. rewrite Hplot. simpl. exact IH.
Qed.

(** The first plot that is not switched off and has no cache file ends the
    process with status -1. *)
Theorem make_plots_exits_without_cache render disk skipped plot rest :
  Forall (fun plot => do_it (snd plot) = Some false) skipped ->
  do_it (snd plot) <> Some false ->
  disk !! cache_name (fst plot) = None ->
  make_plots path_join cache_directory variables breakdown_labels max_plots
    render disk (skipped ++ plot :: rest)
  = SystemExit (-1).
Proof.
  intros Hskipped Hdo Hmissing. unfold make_plots.
  rewrite make_plots_from_skipped by done. simpl.
  unfold make_plot, get_plot_cache. rewrite Hmissing.
  destruct (do_it (snd plot)) as [[]|]; done.
Qed.

End PlotFacts.

Lemma make_plots_exits_without_cache_witness :
  DomainAnalyser.make_plots sample_join "cache" ∅ None None
    (fun _ _ _ _ _ => DomainAnalyser.Done "plot.pdf") ∅
    [("off", DomainAnalyser.mkPlot (Some false) None None None);
     ("sector", DomainAnalyser.mkPlot None None None None)]
  = DomainAnalyser.SystemExit (-1).
Proof.
  apply (make_plots_exits_without_cache sample_join "cache" ∅ None None _ ∅
           [("off", DomainAnalyser.mkPlot (Some false) None None None)]
           ("sector", DomainAnalyser.mkPlot None None None None) []).
  - by repeat constructor.
  - discriminate.
  - reflexivity.
Defined.


(** ** The statistics of one breakdown *)

Section OneBreakdownFacts.

Import DomainAnalyser.

Variables selection weights statistic : Type.
Variable variable_properties : string -> result unit.
Variable select_weights : list string -> result weights.
Variable get_records_select : string -> variable_row -> result selection.
Variable sample_statistics :
  list string -> selection -> weights -> variable_row -> result statistic.
Variable module_info : gmap string (option bool).

#[local] Abbreviation loop :=
  (statistics_loop selection weights statistic variable_properties
     select_weights get_records_select sample_statistics module_info).

Lemma stats_set_keys {S : Type} (all_stats : list (string * S)) var_key stats k :
  In k (map fst (stats_set all_stats var_key stats))
  <-> k = var_key \/ In k (map fst all_stats).
Proof.
  induction all_stats as [|[k0 v0] rest IH]; simpl.
  - intuition congruence.
  - destruct (String.eqb var_key k0) eqn:Heq; simpl.
    + apply String.eqb_eq in Heq. subst k0. intuition congruence.
    + rewrite IH. tauto.
Qed.

Lemma stats_set_NoDup {S : Type} (all_stats : list (string * S)) var_key stats :
  List.NoDup (map fst all_stats) ->
  List.NoDup (map fst (stats_set all_stats var_key stats)).
Proof.
  induction all_stats as [|[k0 v0] rest IH]; simpl.
  - intros _. constructor; [tauto|constructor].
  - intros Hnd. apply NoDup_cons_iff in Hnd as [Hfresh Hnd].
    destruct (String.eqb var_key k0) eqn:Heq; simpl.
    + by constructor.
    + constructor; [|by apply IH]. rewrite stats_set_keys.
      apply String.eqb_neq in Heq. intuition congruence.
Qed.

(** The variables that get statistics: those of an included module whose
    selection of records succeeds. *)
Lemma statistics_loop_keys group_by rows all_stats result :
  loop group_by rows all_stats = Ok result ->
  (forall k,
     In k (map fst result)
     <-> In k (map fst all_stats)
         \/ exists var_prop include data,
              In (k, var_prop) rows
              /\ module_info !! row_module var_prop = Some include
              /\ default true include = true
              /\ get_records_select k var_prop = Ok data)
  /\ (List.NoDup (map fst all_stats) -> List.NoDup (map fst result)).
Proof.
  revert all_stats.
  induction rows as [|[var_key var_prop] rest IH]; intros all_stats.
  - intros [= <-]. split; [|done]. intros k. split; [tauto|].
    intros [H|(? & ? & ? & [] & _)]. exact H.
  - simpl. destruct (variable_properties var_key) as [[]|e]; [|done]. simpl.
    destruct (module_info !! row_module var_prop) as [include|] eqn:Hmodule;
      [|done].
    assert (Hskip : forall acc,
      loop group_by rest acc = Ok result ->
      (default true include = false
       \/ forall data, get_records_select var_key var_prop <> Ok data) ->
      (forall k,
         In k (map fst result)
         <-> In k (map fst acc)
             \/ exists var_prop0 include0 data,
                  In (k, var_prop0) ((var_key, var_prop) :: rest)
                  /\ module_info !! row_module var_prop0 = Some include0
                  /\ default true include0 = true
                  /\ get_records_select k var_prop0 = Ok data)
      /\ (List.NoDup (map fst acc) -> List.NoDup (map fst result))).
    { intros acc Hloop Hwhy. destruct (IH acc Hloop) as [Hkeys Hnd].
      split; [|done]. intros k. rewrite Hkeys. split.
      - intros [H|(p & i & d & Hin & Hrest)]; [by left|].
        right. exists p, i, d. split; [by right|done].
      - intros [H|(p & i & d & [[= <- <-]|Hin] & Hm & Hi & Hd)]; [by left| |].
        + exfalso. destruct Hwhy as [Hwhy|Hwhy].
          * rewrite Hmodule in Hm. injection Hm as <-. congruence.
          * by apply (Hwhy d).
        + right. by exists p, i, d. }
    destruct (negb (default true include)) eqn:Hinclude.
    { intros Hloop. apply (Hskip _ Hloop). left.
      by apply negb_true_iff in Hinclude. }
    apply negb_false_iff in Hinclude.
    destruct (select_weights _) as [df_weights|e]; [|done]. simpl.
    destruct (get_records_select var_key var_prop) as [data|e] eqn:Hselect.
    + destruct (sample_statistics group_by data df_weights var_prop)
        as [stats|e]; [|done].
      simpl. intros Hloop. destruct (IH _ Hloop) as [Hkeys Hnd]. split.
      * intros k. rewrite Hkeys, stats_set_keys. split.
        -- intros [[->|H]|(p & i & d & Hin & Hrest)].
           ++ right. exists var_prop, include, data.
              split; [by left|done].
           ++ by left.
           ++ right. exists p, i, d. split; [by right|done].
        -- intros [H|(p & i & d & [[= <- <-]|Hin] & Hrest)].
           ++ left. by right.
           ++ left. by left.
           ++ right. by exists p, i, d.
      * intros H. by apply Hnd, stats_set_NoDup.
    + destruct e; try done. intros Hloop. apply (Hskip _ Hloop). right.
      by intros data.
Qed.

(** The result of [calculate_statistics_one_breakdown] has one entry for
    each variable of an included module whose selection of records
    succeeded, and for no other: variables of excluded modules and
    variables whose selection raised [KeyError] are left out. *)
Theorem one_breakdown_keys group_by rows all_stats :
  calculate_statistics_one_breakdown selection weights statistic
    variable_properties select_weights get_records_select sample_statistics
    module_info group_by rows = Ok all_stats ->
  List.NoDup (map fst all_stats)
  /\ forall var_key,
       In var_key (map fst all_stats)
       <-> exists var_prop include data,
             In (var_key, var_prop) rows
             /\ module_info !! row_module var_prop = Some include
             /\ default true include = true
             /\ get_records_select var_key var_prop = Ok data.
Proof.
  unfold calculate_statistics_one_breakdown. intros Hloop.
  destruct (statistics_loop_keys _ _ _ _ Hloop) as [Hkeys Hnd].
  split; [apply Hnd; constructor|].
  intros var_key. rewrite Hkeys. simpl. tauto.
Qed.

(** What stops the loop: a variable of an included module whose weights
    are missing, or whose selection raises anything but [KeyError], when
    the variables before it were all left out. *)
Theorem one_breakdown_stops group_by skipped var_key var_prop rest include e :
  Forall (fun row =>
            variable_properties (fst row) = Ok tt
            /\ module_info !! row_module (snd row) = Some (Some false))
         skipped ->
  variable_properties var_key = Ok tt ->
  module_info !! row_module var_prop = Some include ->
  default true include = true ->
  (select_weights
     [row_gewicht var_prop; "ratio_" +:+ row_gewicht var_prop; "ratio_units"]
   = Raise e
   \/ (exists df_weights,
         select_weights
           [row_gewicht var_prop; "ratio_" +:+ row_gewicht var_prop;
            "ratio_units"] = Ok df_weights)
      /\ get_records_select var_key var_prop = Raise e
      /\ (forall key, e <> KeyError key)) ->
  calculate_statistics_one_breakdown selection weights statistic
    variable_properties select_weights get_records_select sample_statistics
    module_info group_by (skipped ++ (var_key, var_prop) :: rest) = Raise e.
Proof.
  intros Hskipped Hprops Hmodule Hinclude Hwhy.
  unfold calculate_statistics_one_breakdown. generalize (@nil (string * statistic)).
  induction Hskipped as [|[k p] skipped [Hk Hp] _ IH]; intros acc.
  - simpl. rewrite Hprops, Hmodule. simpl. rewrite Hinclude. simpl.
    destruct Hwhy as [->|([df_weights ->] & -> & Hne)]; [done|]. simpl.
    destruct e as [key| | | | |]; try done. by destruct (Hne key).
  - simpl in *. rewrite Hk, Hp. simpl. apply IH.
Qed.

End OneBreakdownFacts.

(** ** Reading the tables *)

Section ReadTablesFacts.

Import Utils.

Variable frame : Type.
Variable read_sql : string -> result frame.
Variable concat : list frame -> result frame.

Lemma read_each_events table_names :
  ~ In Close (fst (read_each frame read_sql table_names))
  /\ forall tables,
       snd (read_each frame read_sql table_names) = Ok tables ->
       fst (read_each frame read_sql table_names) = map Select table_names
       /\ Forall2 (fun name df => read_sql name = Ok df) table_names tables.
Proof.
  induction table_names as [|name rest [IHclose IHok]]; simpl.
  - split; [tauto|]. intros tables [= <-]. by split; constructor.
  - destruct (read_sql name) as [df|e] eqn:Hread; simpl.
    + destruct (read_each frame read_sql rest) as [events [dfs|e]]; simpl in *.
      * split; [intuition discriminate|]. intros tables [= <-].
        destruct (IHok dfs eq_refl) as [-> Hall]. split; [done|].
        by constructor.
      * split; [intuition discriminate|done].
    + split; [intuition discriminate|done].
Qed.

(** The connection of [read_tables_from_sqlite]: a bare name is read as a
    list of one name; when the function returns, every table was queried
    in order and the connection closed; when it raises, the connection is
    left open; an empty list of names raises [IndexError]; and a single
    table is returned as it was read, without a call of [pd.concat]. *)
Theorem read_tables_connection :
  (forall name,
     read_tables_from_sqlite frame read_sql concat (OneName name)
     = read_tables_from_sqlite frame read_sql concat (Names [name]))
  /\ (forall names tables_df,
        snd (read_tables_from_sqlite frame read_sql concat (Names names))
        = Ok tables_df ->
        fst (read_tables_from_sqlite frame read_sql concat (Names names))
        = Connect :: map Select names ++ [Close])
  /\ (forall table_names e,
        snd (read_tables_from_sqlite frame read_sql concat table_names)
        = Raise e ->
        ~ In Close
            (fst (read_tables_from_sqlite frame read_sql concat table_names)))
  /\ read_tables_from_sqlite frame read_sql concat (Names [])
     = ([Connect], Raise (IndexError "tables[0]"))
  /\ (forall name df,
        read_sql name = Ok df ->
        read_tables_from_sqlite frame read_sql concat (Names [name])
        = ([Connect; Select name; Close], Ok df)).
Proof.
  split; [done|]. split; [|split; [|split]].
  - intros names tables_df. unfold read_tables_from_sqlite.
    destruct (read_each_events names) as [_ Hok].
    destruct (read_each frame read_sql names) as [events [tables|e]];
      simpl in *; [|done].
    destruct (Hok tables eq_refl) as [-> _].
    by destruct (combine_tables frame concat tables).
  - intros table_names e. unfold read_tables_from_sqlite.
    set (names := match table_names with
                  | OneName name => [name]
                  | Names names => names
                  end).
    destruct (read_each_events names) as [Hclose _].
    destruct (read_each frame read_sql names) as [events [tables|e']];
      simpl in *.
    + destruct (combine_tables frame concat tables); [done|]. simpl.
      intros _. intuition discriminate.
    + intros _. intuition discriminate.
  - done.
  - intros name df Hread. unfold read_tables_from_sqlite. simpl.
    by rewrite Hread.
Qed.

End ReadTablesFacts.

(** ** The settings the driver needs *)

Section MainFacts.

Import Driver.

Variable is_dir : string -> bool.
Variable init_body : list (string * yaml) -> result unit.

(** [main] reports the first section the settings lack, in the order
    general, statistics, translations, gk_data, variables, weight; a
    settings document that is no mapping raises [TypeError]. *)
Theorem main_reports_first_missing_section args :
  (forall items key,
     List.find (fun section =>
                  match assoc section items with
                  | Some _ => false
                  | None => true
                  end)
       ["general"; "statistics"; "translations"; "gk_data"; "variables";
        "weight"] = Some key ->
     main is_dir init_body args (YMap items) = Raise (KeyError key))
  /\ (forall settings,
        (forall items, settings <> YMap items) ->
        main is_dir init_body args settings = Raise (TypeError "subscript")).
Proof.
  split.
  - intros items key. unfold main, call_arguments, getitem. simpl.
    destruct (assoc "general" items); [|by intros [= <-]].
    destruct (assoc "statistics" items); [|by intros [= <-]].
    destruct (assoc "translations" items); [|by intros [= <-]].
    destruct (assoc "gk_data" items); [|by intros [= <-]].
    destruct (assoc "variables" items); [|by intros [= <-]].
    destruct (assoc "weight" items); [|by intros [= <-]].
    done.
  - intros settings Hno. destruct settings; try done. by destruct (Hno items).
Qed.

End MainFacts.

Lemma main_reports_first_missing_section_witness :
  Driver.main (fun _ => true) (fun _ => Ok tt) sample_arguments
    (Driver.YMap [("general", Driver.YMap []); ("statistics", Driver.YNull);
                  ("weight", Driver.YNull)])
  = Raise (KeyError "translations").
Proof.
  apply (proj1 (main_reports_first_missing_section (fun _ => true)
                  (fun _ => Ok tt) sample_arguments)).
  reflexivity.
Defined.

(** ** The sheet names in general *)

Section SheetNamesMore.

Import DomainAnalyser.

Variable re_sub : string -> string -> string -> string.
Variable sheet_renames : option (list (string * (string * string))).

Lemma substring_length_le n s : (String.length (substring 0 n s) <= n)%nat.
Proof.
  revert s. induction n as [|n IH]; intros [|c s]; simpl; try lia.
  specialize (IH s). lia.
Qed.

(** Every sheet of the export is named after its breakdown alone (renamed,
    then cut to 32 characters): the name does not depend on the sheets
    written before it, and it has at most 32 characters. *)
Theorem write_statistics_names breakdowns :
  write_statistics re_sub sheet_renames breakdowns
  = map (sheet_name_of re_sub sheet_renames [] 0) breakdowns
  /\ Forall (fun sheet_name => (String.length sheet_name <= 32)%nat)
       (write_statistics re_sub sheet_renames breakdowns).
Proof.
  assert (Hnames : write_statistics re_sub sheet_renames breakdowns
                   = map (sheet_name_of re_sub sheet_renames [] 0) breakdowns).
  { unfold write_statistics. apply sheet_names_never_numbered. constructor. }
  split; [exact Hnames|]. rewrite Hnames.
  apply List.Forall_forall. intros name Hin.
  apply in_map_iff in Hin as (file_base & <- & _).
  unfold sheet_name_of. simpl.
  destruct (32 <? String.length _)%nat eqn:Hlong.
  - apply substring_length_le.
  - apply Nat.ltb_ge in Hlong. exact Hlong.
Qed.

End SheetNamesMore.

Lemma one_breakdown_keys_witness :
  List.NoDup (map fst [("online", 7%nat)])
  /\ forall var_key,
       In var_key (map fst [("online", 7%nat)])
       <-> exists var_prop include data,
             In (var_key, var_prop)
               [("online", DomainAnalyser.mkVariableRow "web" "bool" None "units");
                ("mail", DomainAnalyser.mkVariableRow "post" "bool" None "units");
                ("dnssec", DomainAnalyser.mkVariableRow "web" "bool" None "units")]
             /\ ({["web" := None; "post" := Some false]}
                   : gmap string (option bool))
                  !! DomainAnalyser.row_module var_prop = Some include
             /\ default true include = true
             /\ (fun (var_key : string) (_ : DomainAnalyser.variable_row) =>
                   if String.eqb var_key "dnssec"
                   then Raise (KeyError "dnssec") else Ok tt)
                  var_key var_prop = Ok data.
Proof.
  apply (one_breakdown_keys unit unit nat (fun _ => Ok tt) (fun _ => Ok tt) _ (fun _ _ _ _ => Ok 7%nat) _ ["sector"]). reflexivity.
Defined.

Lemma one_breakdown_stops_witness :
  DomainAnalyser.calculate_statistics_one_breakdown unit unit nat
    (fun _ => Ok tt)
    (fun cols => if existsb (String.eqb "gewicht") cols
                 then Raise (KeyError "gewicht") else Ok tt)
    (fun _ _ => Ok tt) (fun _ _ _ _ => Ok 7%nat)
    ({["web" := None; "post" := Some false]} : gmap string (option bool))
    ["sector"]
    ([("mail", DomainAnalyser.mkVariableRow "post" "bool" None "units")]
     ++ ("online", DomainAnalyser.mkVariableRow "web" "bool" None "gewicht")
     :: [("dnssec", DomainAnalyser.mkVariableRow "web" "bool" None "units")])
  = Raise (KeyError "gewicht").
Proof.
  apply (one_breakdown_stops unit unit nat) with (include := None).
  - by repeat constructor.
  - reflexivity.
  - reflexivity.
  - reflexivity.
  - left. reflexivity.
Defined.
